(** * go-http-server-template: configuration, health probes and lifecycle

    A shallow embedding of [internal/config], [internal/health] and
    [cmd/server.go], together with the parts of the third-party packages the
    three files call (strconv, strings, zerolog, caarlos0/env, godotenv,
    go-playground/validator, gin, hlog, net/http, os/signal), each modelled
    as far as the calls made by this repository reach. *)

From Stdlib Require Import ZArith String Ascii List Bool Lia DecimalString.
From stdpp Require Import base option strings gmap.

Import ListNotations.
Local Open Scope string_scope.
Local Open Scope Z_scope.

(** ** Go's [strconv]: base-10 integer parsing *)

Module strconv.

Inductive NumError := ErrSyntax | ErrRange.

Definition byte_of (c : ascii) : Z := Z.of_N (N_of_ascii c).

Definition maxUint64 : Z := 2 ^ 64 - 1.

(** The loop of [ParseUint(s, 10, bitSize)] over the remaining bytes, [n]
    being the value read so far.  A range error stops the loop at once and
    reports the largest value, as the Go code does. *)
Fixpoint ParseUint_loop (maxVal n : Z) (s : string) : Z * option NumError :=
  match s with
  | EmptyString => (n, None)
  | String c rest =>
      let d := byte_of c - 48 in
      if negb ((0 <=? d) && (d <=? 9)) then (0, Some ErrSyntax)
      else if maxUint64 / 10 + 1 <=? n then (maxVal, Some ErrRange)
      else
        let n1 := n * 10 + d in
        if (maxUint64 <? n1) || (maxVal <? n1) then (maxVal, Some ErrRange)
        else ParseUint_loop maxVal n1 rest
  end.

Definition IntSize : Z := 64.

Definition ParseUint (s : string) (bitSize : Z) : Z * option NumError :=
  match s with
  | EmptyString => (0, Some ErrSyntax)
  | _ =>
      let bitSize := if bitSize =? 0 then IntSize else bitSize in
      ParseUint_loop (2 ^ bitSize - 1) 0 s
  end.

(** [ParseInt(s, 10, bitSize)]: optional sign, then [ParseUint], then the
    signed range check. *)
Definition ParseInt (s : string) (bitSize : Z) : Z * option NumError :=
  match s with
  | EmptyString => (0, Some ErrSyntax)
  | String c rest =>
      let neg := Ascii.eqb c "-" in
      let s1 := if Ascii.eqb c "+" || neg then rest else s in
      match ParseUint s1 bitSize with
      | (_, Some ErrSyntax) => (0, Some ErrSyntax)
      | (un, _) =>
          let bitSize := if bitSize =? 0 then IntSize else bitSize in
          let cutoff := 2 ^ (bitSize - 1) in
          if negb neg && (cutoff <=? un) then (cutoff - 1, Some ErrRange)
          else if neg && (cutoff <? un) then (- cutoff, Some ErrRange)
          else (if neg then - un else un, None)
      end
  end.

Definition Atoi (s : string) : Z * option NumError := ParseInt s 0.

(** [Itoa], also what [fmt] prints for [%d] *)
Definition Itoa (i : Z) : string := NilZero.string_of_int (Z.to_int i).

End strconv.

(** ** Go's [strings]: case folding and search *)

Module strings.

Definition lower (b : Z) : Z := if (65 <=? b) && (b <=? 90) then b + 32 else b.

(** [EqualFold s t] for a [t] made of ASCII bytes, [s] being arbitrary
    UTF-8.  Under simple case folding the only non-ASCII runes that fold to
    an ASCII letter are U+212A (Kelvin sign, bytes E2 84 AA, folds to k) and
    U+017F (long s, bytes C5 BF, folds to s). *)
Fixpoint EqualFold (s t : string) : bool :=
  match t with
  | EmptyString => match s with EmptyString => true | _ => false end
  | String tc t' =>
      let tl := lower (strconv.byte_of tc) in
      match s with
      | EmptyString => false
      | String c s' =>
          let b := strconv.byte_of c in
          if b <? 128 then (lower b =? tl) && EqualFold s' t'
          else
            match s' with
            | String c2 (String c3 s3) =>
                if (b =? 226) && (strconv.byte_of c2 =? 132)
                   && (strconv.byte_of c3 =? 170)
                then (tl =? 107) && EqualFold s3 t'
                else if (b =? 197) && (strconv.byte_of c2 =? 191)
                then (tl =? 115) && EqualFold (String c3 s3) t'
                else false
            | String c2 s2 =>
                if (b =? 197) && (strconv.byte_of c2 =? 191)
                then (tl =? 115) && EqualFold s2 t'
                else false
            | EmptyString => false
            end
      end
  end.

Definition ascii_lower (c : ascii) : ascii :=
  let b := strconv.byte_of c in
  if (65 <=? b) && (b <=? 90) then ascii_of_N (Z.to_N (b + 32)) else c.

(** [strings.ToLower], as far as ASCII text in the result goes: besides
    A-Z, the runes whose lower case is an ASCII letter are U+0130 (bytes
    C4 B0, to i) and U+212A (bytes E2 84 AA, to k).  Every other rune maps
    to a rune outside ASCII; its bytes are left as they are here, which
    does not change whether an ASCII text occurs in the result. *)
Fixpoint ToLower (s : string) : string :=
  match s with
  | EmptyString => EmptyString
  | String c rest =>
      let keep := String (ascii_lower c) (ToLower rest) in
      match rest with
      | String c2 rest2 =>
          if (strconv.byte_of c =? 196) && (strconv.byte_of c2 =? 176)
          then String "i" (ToLower rest2)
          else
            match rest2 with
            | String c3 rest3 =>
                if (strconv.byte_of c =? 226) && (strconv.byte_of c2 =? 132)
                   && (strconv.byte_of c3 =? 170)
                then String "k" (ToLower rest3)
                else keep
            | EmptyString => keep
            end
      | EmptyString => keep
      end
  end.

(** [strings.Contains] *)
Fixpoint Contains (s substr : string) : bool :=
  String.prefix substr s
  || match s with
     | EmptyString => false
     | String _ rest => Contains rest substr
     end.

End strings.

(** ** caarlos0/env: reading one field from the environment *)

Module env.

(** The parameters [parseFieldParams] derives from a field's [env] and
    [envDefault] tags.  [Required] and [NotEmpty] come from options written
    inside the [env] tag ([env:"PORT,required"]); no other tag sets them. *)
Record FieldParams := {
  OwnKey : string;
  Key : string;
  DefaultValue : string;
  HasDefaultValue : bool;
  Required : bool;
  NotEmpty : bool
}.

(** [getOr]: the value, whether the variable exists, whether the default is
    used.  A variable that is unset, or set to the empty string, takes the
    default when the field has one. *)
Definition getOr (key defaultValue : string) (defExists : bool)
    (envs : gmap string string) : string * bool * bool :=
  let value := default "" (envs !! key) in
  let exists_ := bool_decide (is_Some (envs !! key)) in
  if (negb exists_ || String.eqb key "") && defExists
  then (defaultValue, true, true)
  else if exists_ && String.eqb value "" && defExists
  then (defaultValue, true, true)
  else if negb exists_ then ("", false, false)
  else (value, true, false).

Inductive FieldError :=
  | VarIsNotSetError (key : string)
  | EmptyVarError (key : string)
  | ParseError (name type_ : string) (cause : strconv.NumError).

Definition get (fieldParams : FieldParams) (envs : gmap string string)
    : string * option FieldError :=
  let '(val, exists_, _) :=
    getOr (Key fieldParams) (DefaultValue fieldParams)
          (HasDefaultValue fieldParams) envs in
  if Required fieldParams && negb exists_
     && negb (String.eqb (OwnKey fieldParams) "")
  then ("", Some (VarIsNotSetError (Key fieldParams)))
  else if NotEmpty fieldParams && String.eqb val ""
  then ("", Some (EmptyVarError (Key fieldParams)))
  else (val, None).

(** The built-in parser for [reflect.Int]: [strconv.ParseInt(v, 10, 32)].
    A field is assigned only when the parser returns no error. *)
Definition parse_int (name v : string) : option Z * option FieldError :=
  match strconv.ParseInt v 32 with
  | (i, None) => (Some i, None)
  | (_, Some e) => (None, Some (ParseError name "int" e))
  end.

End env.

(** ** go-playground/validator: the tags used by [ServerConfig] *)

Module validator.

(** One failed field: its namespace and the tag that failed. *)
Record FieldError := { Namespace : string; Tag : string }.

Inductive IntTag := required_int | gt (p : Z) | lt (p : Z).
Inductive StringTag := required_string | oneof (vals : list string).

Definition int_tag_name (t : IntTag) : string :=
  match t with required_int => "required" | gt _ => "gt" | lt _ => "lt" end.

Definition string_tag_name (t : StringTag) : string :=
  match t with required_string => "required" | oneof _ => "oneof" end.

(** [required] fails on the zero value; [gt] and [lt] compare an integer
    field with the parameter; [oneof] looks the string up among the
    space-separated values. *)
Definition int_tag_ok (t : IntTag) (v : Z) : bool :=
  match t with
  | required_int => negb (v =? 0)
  | gt p => p <? v
  | lt p => v <? p
  end.

Definition string_tag_ok (t : StringTag) (v : string) : bool :=
  match t with
  | required_string => negb (String.eqb v "")
  | oneof vals => existsb (String.eqb v) vals
  end.

(** A field stops at its first failing tag and reports that one. *)
Definition validate_int (ns : string) (tags : list IntTag) (v : Z)
    : list FieldError :=
  match find (fun t => negb (int_tag_ok t v)) tags with
  | Some t => [{| Namespace := ns; Tag := int_tag_name t |}]
  | None => []
  end.

Definition validate_string (ns : string) (tags : list StringTag) (v : string)
    : list FieldError :=
  match find (fun t => negb (string_tag_ok t v)) tags with
  | Some t => [{| Namespace := ns; Tag := string_tag_name t |}]
  | None => []
  end.

End validator.

(** ** Go's [error] values that flow through this program *)

Inductive error :=
  | errorString (msg : string)
  | env_AggregateError (errs : list env.FieldError)
  | validator_ValidationErrors (errs : list validator.FieldError)
  | context_DeadlineExceeded
  | http_ErrServerClosed.

(** The [error] interface: anything with an [Error() string] method. *)
Class GoError (E : Type) := Error : E -> string.

#[export] Instance errorString_GoError : GoError string := fun msg => msg.

(** ** zerolog: levels, loggers and emitted events *)

Module zerolog.

(** [type Level int8] *)
Definition Level := Z.

Definition DebugLevel : Level := 0.
Definition InfoLevel : Level := 1.
Definition WarnLevel : Level := 2.
Definition ErrorLevel : Level := 3.
Definition FatalLevel : Level := 4.
Definition PanicLevel : Level := 5.
Definition NoLevel : Level := 6.
Definition Disabled : Level := 7.
Definition TraceLevel : Level := -1.

(** [Level.String], the default [LevelFieldMarshalFunc], on the named
    levels. *)
Definition LevelFieldMarshalFunc (l : Level) : string :=
  if l =? TraceLevel then "trace"
  else if l =? DebugLevel then "debug"
  else if l =? InfoLevel then "info"
  else if l =? WarnLevel then "warn"
  else if l =? ErrorLevel then "error"
  else if l =? FatalLevel then "fatal"
  else if l =? PanicLevel then "panic"
  else if l =? Disabled then "disabled"
  else "".

Definition named_levels : list Level :=
  [TraceLevel; DebugLevel; InfoLevel; WarnLevel; ErrorLevel; FatalLevel;
   PanicLevel; Disabled; NoLevel].

(** [ParseLevel]: the first named level whose text matches up to case,
    else a decimal int8. *)
Definition ParseLevel (levelStr : string) : Level * option error :=
  match find (fun l => strings.EqualFold levelStr (LevelFieldMarshalFunc l))
             named_levels with
  | Some l => (l, None)
  | None =>
      match strconv.Atoi levelStr with
      | (_, Some _) =>
          (NoLevel, Some (errorString ("Unknown Level String: '" ++ levelStr
                                       ++ "', defaulting to NoLevel")))
      | (i, None) =>
          if (127 <? i) || (i <? -128)
          then (NoLevel,
                Some (errorString ("Out-Of-Bounds Level: '" ++ strconv.Itoa i
                                   ++ "', defaulting to NoLevel")))
          else (i, None)
      end
  end.

(** A logger: its minimum level, whether a timestamp hook is installed,
    and the string fields of its context. *)
Record Logger := {
  level : Level;
  timestamp : bool;
  context : list (string * string)
}.

(** A value attached to one event with [Int] or [Interface]. *)
Inductive FieldValue (A : Type) :=
  | FInt (i : Z)
  | FInterface (a : A).
Arguments FInt {A} i.
Arguments FInterface {A} a.

(** One line written to the logger's writer: level, the logger's context
    fields, the value given to [Err], the fields added on the event, and
    the message.  [A] is the type of the values passed to [Interface]. *)
Record Event (A : Type) := {
  ev_level : Level;
  ev_context : list (string * string);
  ev_err : option error;
  ev_fields : list (string * FieldValue A);
  ev_msg : string
}.
Arguments ev_level {A} e.
Arguments ev_context {A} e.
Arguments ev_err {A} e.
Arguments ev_fields {A} e.
Arguments ev_msg {A} e.

(** [zerolog.New(w)] *)
Definition New : Logger :=
  {| level := TraceLevel; timestamp := false; context := [] |}.

(** [l.With().Timestamp().Logger()] *)
Definition With_Timestamp (l : Logger) : Logger :=
  {| level := level l; timestamp := true; context := context l |}.

(** [l.With().Str(k, v).Logger()] *)
Definition With_Str (k v : string) (l : Logger) : Logger :=
  {| level := level l; timestamp := timestamp l;
     context := context l ++ [(k, v)] |}.

(** [l.Level(lvl)] *)
Definition With_Level (lvl : Level) (l : Logger) : Logger :=
  {| level := lvl; timestamp := timestamp l; context := context l |}.

(** [Logger.should]: the writer is set, sampling is off and the global
    level is left at its default, which lets every level from debug up
    through, so only the logger's level filters the lines of this program. *)
Definition should (l : Logger) (lvl : Level) : bool := level l <=? lvl.

(** [l.<Level>().Err(err).<fields>.Msg(msg)]: the lines it adds to the
    output. *)
Definition emit {A} (l : Logger) (lvl : Level) (err : option error)
    (fields : list (string * FieldValue A)) (msg : string) : list (Event A) :=
  if should l lvl
  then [{| ev_level := lvl; ev_context := context l; ev_err := err;
           ev_fields := fields; ev_msg := msg |}]
  else [].

End zerolog.

(** ** joho/godotenv *)

Module godotenv.

(** [Load()] reads [./.env].  [file] is what reading and parsing it gives:
    the parsed assignments, or the error (no such file, malformed line).
    On success every key that is not yet in the environment is set; keys
    already there keep their value.  On error nothing is set. *)
Definition Load (file : gmap string string + error)
    (environ : gmap string string) : gmap string string * option error :=
  match file with
  | inl vars => (environ ∪ vars, None)
  | inr err => (environ, Some err)
  end.

End godotenv.

(** ** internal/config *)

Module config.

Record ServerConfig := {
  Address : string;
  Port : Z;
  LogLevel : string;
  Env : string
}.

Record Config := { Server : ServerConfig }.

(** [&Config{}] *)
Definition zero : Config :=
  {| Server := {| Address := ""; Port := 0; LogLevel := ""; Env := "" |} |}.

(** Field parameters read off the struct tags, under [envPrefix:"SERVER_"].
    The [required:"true"] tag of [Port] is not a tag of the env package, so
    no field is required at this stage. *)
Definition params (ownKey : string) (def : option string) : env.FieldParams :=
  {| env.OwnKey := ownKey;
     env.Key := "SERVER_" ++ ownKey;
     env.DefaultValue := default "" def;
     env.HasDefaultValue := bool_decide (is_Some def);
     env.Required := false;
     env.NotEmpty := false |}.

Definition Address_params := params "ADDRESS" None.
Definition Port_params := params "PORT" None.
Definition LogLevel_params := params "LOG_LEVEL" (Some "info").
Definition Env_params := params "ENV" None.

(** A string field: assigned when the value read is not empty. *)
Definition process_string (p : env.FieldParams) (envs : gmap string string)
    (old : string) : string * list env.FieldError :=
  match env.get p envs with
  | (_, Some e) => (old, [e])
  | (v, None) => (if String.eqb v "" then old else v, [])
  end.

(** An int field: assigned when the value read is not empty and parses. *)
Definition process_int (name : string) (p : env.FieldParams)
    (envs : gmap string string) (old : Z) : Z * list env.FieldError :=
  match env.get p envs with
  | (_, Some e) => (old, [e])
  | (v, None) =>
      if String.eqb v "" then (old, [])
      else
        match env.parse_int name v with
        | (Some i, _) => (i, [])
        | (None, Some e) => (old, [e])
        | (None, None) => (old, [])
        end
  end.

(** [env.Parse(config)]: every field is processed in declaration order and
    the errors are aggregated. *)
Definition Parse (envs : gmap string string) (c : Config)
    : Config * option error :=
  let s := Server c in
  let '(address, e1) := process_string Address_params envs (Address s) in
  let '(port, e2) := process_int "Port" Port_params envs (Port s) in
  let '(logLevel, e3) := process_string LogLevel_params envs (LogLevel s) in
  let '(env_, e4) := process_string Env_params envs (Env s) in
  let c' := {| Server := {| Address := address; Port := port;
                            LogLevel := logLevel; Env := env_ |} |} in
  match (e1 ++ e2 ++ e3 ++ e4)%list with
  | [] => (c', None)
  | errs => (c', Some (env_AggregateError errs))
  end.

Definition Port_tags : list validator.IntTag :=
  [validator.required_int; validator.gt 0; validator.lt 65536].
Definition LogLevel_tags : list validator.StringTag :=
  [validator.required_string;
   validator.oneof ["debug"; "info"; "warn"; "error"]].
Definition Env_tags : list validator.StringTag :=
  [validator.required_string;
   validator.oneof ["local"; "dev"; "staging"; "prod"]].

(** [validator.New(...).Struct(config)]: [Address] carries no tag. *)
Definition Struct (c : Config) : option error :=
  let s := Server c in
  match (validator.validate_int "Config.Server.Port" Port_tags (Port s)
         ++ validator.validate_string "Config.Server.LogLevel" LogLevel_tags
              (LogLevel s)
         ++ validator.validate_string "Config.Server.Env" Env_tags (Env s))%list
  with
  | [] => None
  | errs => Some (validator_ValidationErrors errs)
  end.

(** What [LoadConfig] leaves behind besides its results: the environment
    after [godotenv.Load] and the lines written through the logger. *)
Record Effects (A : Type) := {
  environ_after : gmap string string;
  logged : list (zerolog.Event A)
}.
Arguments environ_after {A} e.
Arguments logged {A} e.

Definition LoadConfig {A} (logger : zerolog.Logger)
    (dotenv : gmap string string + error) (environ : gmap string string)
    : (option Config * option error) * Effects A :=
  let '(environ', err) := godotenv.Load dotenv environ in
  let log :=
    match err with
    | Some e => zerolog.emit logger zerolog.WarnLevel (Some e) []
                  "failed to load environment variables"
    | None => []
    end in
  let fx := {| environ_after := environ'; logged := log |} in
  match Parse environ' zero with
  | (_, Some e) => ((None, Some e), fx)
  | (config, None) =>
      match Struct config with
      | Some e => ((None, Some e), fx)
      | None => ((Some config, None), fx)
      end
  end.

(** [func (c *Config) LogLevel() zerolog.Level] *)
Definition Config_LogLevel (c : Config) : zerolog.Level :=
  match zerolog.ParseLevel (LogLevel (Server c)) with
  | (_, Some _) => zerolog.InfoLevel
  | (level, None) => level
  end.

(** [func (c *Config) IsProd() bool] *)
Definition Config_IsProd (c : Config) : bool :=
  String.eqb (Env (Server c)) "prod".

End config.

(** ** encoding/json values written by the handlers *)

#[warnings="-register-all"]
Inductive JSON :=
  | JObject (members : list (string * JSON))
  | JString (s : string).

(** ** net/http: requests and handlers; gin: contexts and handler chains *)

Module gin.

(** The part of [*http.Request] the program looks at, and the logger that
    [Request.WithContext] attaches to a copy of it. *)
Record Request := {
  Method : string;
  Path : string;
  ctx_logger : option zerolog.Logger
}.

Definition WithContext (l : zerolog.Logger) (r : Request) : Request :=
  {| Method := Method r; Path := Path r; ctx_logger := Some l |}.

(** gin's [responseWriter]: [written] is [size != noWritten], i.e. the
    status line has been sent. *)
Record responseWriter := {
  status : Z;
  written : bool;
  content_type : option string;
  body : list JSON
}.

(** Values given to [panic]: run-time errors, a [*net.OpError] with the
    text of the [*os.SyscallError] it wraps (if it wraps one), anything
    else. *)
Inductive PanicValue :=
  | runtime_Error (msg : string)
  | net_OpError (syscall_error : option string)
  | other_panic (msg : string).

Record Context := {
  Request_ : Request;
  Writer : responseWriter;
  index : Z;
  Errors : list PanicValue
}.

(** A line printed by the recovery middleware on [DefaultErrorWriter]. *)
Record RecoveryLine := { recovered : PanicValue; broken_pipe : bool }.

(** What a handler can change: the context of the request it serves and
    the process's error output. *)
Record Exec := { ctx : Context; DefaultErrorWriter : list RecoveryLine }.

(** A Go call either returns or panics; either way the state it has
    reached remains. *)
Inductive Outcome (A : Type) :=
  | Returned (a : A) (s : Exec)
  | Panicked (v : PanicValue) (s : Exec).
Arguments Returned {A} a s.
Arguments Panicked {A} v s.

Definition M (A : Type) := Exec -> Outcome A.

Definition ret {A} (a : A) : M A := fun s => Returned a s.

Definition bind {A B} (m : M A) (k : A -> M B) : M B :=
  fun s => match m s with
           | Returned a s' => k a s'
           | Panicked v s' => Panicked v s'
           end.

Definition panic {A} (v : PanicValue) : M A := fun s => Panicked v s.

Definition modify_ctx (f : Context -> Context) : M unit :=
  fun s => Returned tt {| ctx := f (ctx s);
                          DefaultErrorWriter := DefaultErrorWriter s |}.

Definition with_writer (f : responseWriter -> responseWriter) : M unit :=
  modify_ctx (fun c => {| Request_ := Request_ c; Writer := f (Writer c);
                          index := index c; Errors := Errors c |}).

(** A handler [func(c)], given what [c.Next()] does at the point of the
    chain where the handler stands. *)
Definition HandlerFunc := M unit -> M unit.

Definition abortIndex : Z := 63.

Definition defaultStatus : Z := 200.

(** [responseWriter.WriteHeader] *)
Definition WriteHeader (code : Z) (w : responseWriter) : responseWriter :=
  if (0 <? code) && negb (status w =? code) then
    if written w then w
    else {| status := code; written := false;
            content_type := content_type w; body := body w |}
  else w.

(** [responseWriter.WriteHeaderNow] *)
Definition WriteHeaderNow (w : responseWriter) : responseWriter :=
  {| status := status w; written := true; content_type := content_type w;
     body := body w |}.

(** [responseWriter.Write] of one rendered document *)
Definition Write (data : JSON) (w : responseWriter) : responseWriter :=
  let w := WriteHeaderNow w in
  {| status := status w; written := written w;
     content_type := content_type w; body := (body w ++ [data])%list |}.

(** [writeContentType]: set unless a value is already there. *)
Definition writeContentType (v : string) (w : responseWriter) : responseWriter :=
  {| status := status w; written := written w;
     content_type := match content_type w with
                     | Some old => Some old
                     | None => Some v
                     end;
     body := body w |}.

(** [c.Status(code)] *)
Definition Status (code : Z) : M unit := with_writer (WriteHeader code).

(** [c.Abort()] *)
Definition Abort : M unit :=
  modify_ctx (fun c => {| Request_ := Request_ c; Writer := Writer c;
                          index := abortIndex; Errors := Errors c |}).

(** [c.Error(err)] *)
Definition Error_ (v : PanicValue) : M unit :=
  modify_ctx (fun c => {| Request_ := Request_ c; Writer := Writer c;
                          index := index c;
                          Errors := (Errors c ++ [v])%list |}).

(** [c.AbortWithStatus(code)] *)
Definition AbortWithStatus (code : Z) : M unit :=
  bind (Status code) (fun _ =>
  bind (with_writer WriteHeaderNow) (fun _ => Abort)).

Definition bodyAllowedForStatus (code : Z) : bool :=
  negb (((100 <=? code) && (code <=? 199)) || (code =? 204) || (code =? 304)).

(** [c.JSON(code, obj)], [obj] given by the document it marshals to. *)
Definition JSON_ (code : Z) (obj : JSON) : M unit :=
  bind (Status code) (fun _ =>
  if bodyAllowedForStatus code then
    with_writer (fun w =>
      Write obj (writeContentType "application/json; charset=utf-8" w))
  else
    with_writer (fun w =>
      WriteHeaderNow (writeContentType "application/json; charset=utf-8" w))).

(** [gin.H] with string values *)
Definition H (members : list (string * string)) : JSON :=
  JObject (map (fun kv => (fst kv, JString (snd kv))) members).

Definition incr_index : M unit :=
  modify_ctx (fun c => {| Request_ := Request_ c; Writer := Writer c;
                          index := index c + 1; Errors := Errors c |}).

(** The loop of [c.Next()] over the handlers from position [c.index] on,
    [len] being [len(c.handlers)].  A handler that calls [c.Next()] runs
    the rest of the chain inside its own call. *)
Fixpoint handlers_loop (len : Z) (hs : list HandlerFunc) : M unit :=
  fun s =>
    match hs with
    | [] => Returned tt s
    | h :: rest =>
        if len <=? index (ctx s) then Returned tt s
        else
          bind (h (bind incr_index (fun _ => handlers_loop len rest)))
               (fun _ => bind incr_index (fun _ => handlers_loop len rest)) s
    end.

(** [c.Next()] called by the engine on a context just reset. *)
Definition Next (hs : list HandlerFunc) : M unit :=
  bind incr_index (fun _ => handlers_loop (Z.of_nat (length hs)) hs).

(** [c.Next()] called by the first handler of the chain [h :: rest]. *)
Definition Next_after_first (h : HandlerFunc) (rest : list HandlerFunc)
    : M unit :=
  bind incr_index
       (fun _ => handlers_loop (Z.of_nat (length (h :: rest))) rest).

(** An [http.Handler] interface value; [None] is the nil interface. *)
Definition Handler := option (Request -> M unit).

(** [h.ServeHTTP(w, r)]: calling a method on a nil interface panics. *)
Definition ServeHTTP (h : Handler) (r : Request) : M unit :=
  match h with
  | None => panic (runtime_Error
                     "invalid memory address or nil pointer dereference")
  | Some f => f r
  end.

(** [gin.WrapH(h)] *)
Definition WrapH (h : Handler) : HandlerFunc :=
  fun _ s => ServeHTTP h (Request_ (ctx s)) s.

(** The test the recovery middleware makes on the recovered value. *)
Definition brokenPipe (v : PanicValue) : bool :=
  match v with
  | net_OpError (Some se) =>
      let seStr := strings.ToLower se in
      strings.Contains seStr "broken pipe"
      || strings.Contains seStr "connection reset by peer"
  | _ => false
  end.

Definition print_recovery (v : PanicValue) : M unit :=
  fun s => Returned tt
    {| ctx := ctx s;
       DefaultErrorWriter :=
         (DefaultErrorWriter s
          ++ [{| recovered := v; broken_pipe := brokenPipe v |}])%list |}.

(** [gin.Recovery()]: the deferred function recovers what the rest of the
    chain panicked with, prints it, and answers 500 unless the connection
    is broken. *)
Definition Recovery : HandlerFunc :=
  fun next s =>
    match next s with
    | Returned a s' => Returned a s'
    | Panicked v s' =>
        bind (print_recovery v) (fun _ =>
          if brokenPipe v then bind (Error_ v) (fun _ => Abort)
          else AbortWithStatus 500) s'
    end.

Record RouterGroup := { Handlers : list HandlerFunc; basePath : string }.

(** The engine: its root group and the registered routes, each with the
    method, the full path and the chain of handlers. *)
Record Engine := {
  root : RouterGroup;
  trees : list (string * string * list HandlerFunc)
}.

(** [gin.New()] *)
Definition New : Engine :=
  {| root := {| Handlers := []; basePath := "/" |}; trees := [] |}.

(** [engine.Use(middleware)] *)
Definition Use (middleware : HandlerFunc) (e : Engine) : Engine :=
  {| root := {| Handlers := (Handlers (root e) ++ [middleware])%list;
                basePath := basePath (root e) |};
     trees := trees e |}.

(** [joinPaths] for a relative path that starts with a slash and needs no
    cleaning, which is the form of every path in this repository. *)
Definition joinPaths (absolutePath relativePath : string) : string :=
  if String.eqb relativePath "" then absolutePath
  else if String.eqb absolutePath "/" then relativePath
  else (absolutePath ++ relativePath)%string.

(** [engine.Group(relativePath)] *)
Definition Group (relativePath : string) (e : Engine) : RouterGroup :=
  {| Handlers := Handlers (root e);
     basePath := joinPaths (basePath (root e)) relativePath |}.

(** [group.GET(relativePath, handler)]: the route gets the group's
    handlers followed by its own. *)
Definition GET (relativePath : string) (handler : HandlerFunc)
    (g : RouterGroup) (e : Engine) : Engine :=
  {| root := root e;
     trees := (trees e
               ++ [("GET", joinPaths (basePath g) relativePath,
                    (Handlers g ++ [handler])%list)])%list |}.

(** [engine.pool.Get()] then [c.reset()] for request [r] *)
Definition reset (r : Request) : Context :=
  {| Request_ := r;
     Writer := {| status := defaultStatus; written := false;
                  content_type := None; body := [] |};
     index := -1;
     Errors := [] |}.

Definition route (e : Engine) (r : Request) : option (list HandlerFunc) :=
  match find (fun t => String.eqb (fst (fst t)) (Method r)
                       && String.eqb (snd (fst t)) (Path r)) (trees e) with
  | Some t => Some (snd t)
  | None => None
  end.

(** [engine.ServeHTTP] for a request whose method and path are registered:
    run the chain, then send the status line if nothing did.  [None]
    stands for the requests no route matches (redirects and 404 are not
    part of this model). *)
Definition Engine_ServeHTTP (e : Engine) (r : Request)
    (errout : list RecoveryLine) : option (Outcome unit) :=
  match route e r with
  | Some hs =>
      Some (bind (Next hs) (fun _ => with_writer WriteHeaderNow)
              {| ctx := reset r; DefaultErrorWriter := errout |})
  | None => None
  end.

End gin.

(** ** zerolog/hlog *)

Module hlog.

(** [hlog.NewHandler(log)(next)]: attach a copy of the logger to the
    request and hand over to [next]. *)
Definition NewHandler (log : zerolog.Logger) (next : gin.Handler) : gin.Handler :=
  Some (fun r =>
          let l := log in
          let r := gin.WithContext l r in
          gin.ServeHTTP next r).

End hlog.

(** ** internal/health *)

Module health.

(** Modelled from the spec: the type [HealthResult] returned by
    [getHealth] is declared in a file that is not among the sources.  The
    spec gives the readiness body as the empty JSON object, reserved for
    future status fields, so the type is a struct without fields. *)
Record HealthResult : Set := mkHealthResult { }.

Definition HealthResult_json (res : HealthResult) : JSON := JObject [].

Section Handlers.

(** [getHealth] itself is not among the sources either; the handlers
    are stated for whatever it returns: a result and a nil error, or an
    error of any type implementing [Error()]. *)
Context {E : Type} `{GoError E}.
Variable getHealth : HealthResult * option E.

Definition handleReadinessProbe : gin.HandlerFunc :=
  fun _ =>
    let '(res, err) := getHealth in
    match err with
    | Some err => gin.JSON_ 500 (gin.H [("error", Error err)])
    | None => gin.JSON_ 200 (HealthResult_json res)
    end.

Definition handleLivenessProbe : gin.HandlerFunc :=
  fun _ => gin.Status 200.

Definition InitRoutes (r : gin.RouterGroup) (e : gin.Engine) : gin.Engine :=
  gin.GET "/live" handleLivenessProbe r
    (gin.GET "/ready" handleReadinessProbe r e).

End Handlers.

End health.

(** ** os/signal and the Go run time's default signal handling *)

Module signal.

Inductive Signal :=
  | SIGHUP | SIGINT | SIGQUIT | SIGKILL | SIGUSR1 | SIGUSR2 | SIGTERM
  | SIGCHLD.

Definition eqb (a b : Signal) : bool :=
  match a, b with
  | SIGHUP, SIGHUP | SIGINT, SIGINT | SIGQUIT, SIGQUIT | SIGKILL, SIGKILL
  | SIGUSR1, SIGUSR1 | SIGUSR2, SIGUSR2 | SIGTERM, SIGTERM
  | SIGCHLD, SIGCHLD => true
  | _, _ => false
  end.

(** How a process ends, if it does. *)
Inductive Termination :=
  | Exit (code : Z)
  | Signaled (s : Signal)
  | Blocked.

(** Without [Notify]: SIGHUP, SIGINT and SIGTERM make the program exit,
    SIGQUIT makes it exit with a stack dump (status 2), SIGKILL cannot be
    caught, the other signals are caught and no action is taken. *)
Definition default_action (s : Signal) : option Termination :=
  match s with
  | SIGHUP | SIGINT | SIGTERM | SIGKILL => Some (Signaled s)
  | SIGQUIT => Some (Exit 2)
  | SIGUSR1 | SIGUSR2 | SIGCHLD => None
  end.

(** [signal.Notify(c, sigs...)]: the signals relayed to the channel.
    SIGKILL is never relayed. *)
Definition Notify (sigs : list Signal) (s : Signal) : bool :=
  existsb (eqb s) sigs && negb (eqb s SIGKILL).

(** A receive on the channel, given the signals the process gets in
    order: the first relayed signal, unless the process ends or the
    signals run out first. *)
Fixpoint receive (relayed : Signal -> bool) (incoming : list Signal)
    : Signal + Termination :=
  match incoming with
  | [] => inr Blocked
  | s :: rest =>
      if relayed s then inl s
      else
        match default_action s with
        | Some t => inr t
        | None => receive relayed rest
        end
  end.

End signal.

(** ** cmd/server.go *)

Module server.

Import signal.

(** [time.Second], in nanoseconds *)
Definition Second : Z := 1000000000.

(** What the process meets while it runs. *)
Record World := {
  version : string;
  environ : gmap string string;
  (** what reading [./.env] gives *)
  dotenv : gmap string string + error;
  (** the error [ListenAndServe] returns on its own, if it fails to
      listen; [None] when it serves until [Shutdown] *)
  listen_error : option error;
  (** the signals sent to the process, in order *)
  incoming : list Signal;
  (** the time from the call of [Shutdown] until every connection is
      idle, in nanoseconds; [None] if that never happens *)
  drained_after : option Z;
  (** the error of closing the listeners *)
  close_error : option error;
  (** whether the serving goroutine gets to log before the process ends *)
  goroutine_logs : bool
}.

Inductive Mode := DebugMode | ReleaseMode.

(** What the process does that can be seen from outside. *)
Inductive Action :=
  | Log (e : zerolog.Event config.Config)
  | SetMode (m : Mode)
  | ListenAndServe (address : string) (port : Z)
  | Shutdown (timeout : Z).

(** [srv.Shutdown(ctx)] with a context that expires after [timeout]: the
    listeners are closed, then the call waits until the connections are
    idle and returns the listeners' error, or returns the context's error
    when the deadline comes first.  It closes no connection that is still
    active.  The call polls; the polling interval is taken as zero here. *)
Definition Server_Shutdown (timeout : Z) (w : World) : option error :=
  match drained_after w with
  | Some t => if t <? timeout then close_error w
              else Some context_DeadlineExceeded
  | None => Some context_DeadlineExceeded
  end.

Section Router.

Context {E : Type} `{GoError E}.
Variable getHealth : health.HealthResult * option E.

(** Lines 37 to 41 of [main]. *)
Definition router (logger : zerolog.Logger) : gin.Engine :=
  let router := gin.New in
  let router := gin.Use gin.Recovery router in
  let router := gin.Use (gin.WrapH (hlog.NewHandler logger None)) router in
  health.InitRoutes getHealth (gin.Group "/health" router) router.

End Router.

Definition log_all (es : list (zerolog.Event config.Config)) : list Action :=
  map Log es.

(** [logger.Fatal()....Msg(msg)] writes the line and calls [os.Exit(1)]. *)
Definition Fatal (logger : zerolog.Logger) (err : error) (msg : string)
    : list Action * Termination :=
  (log_all (zerolog.emit logger zerolog.FatalLevel (Some err) [] msg), Exit 1).

(** [main], from the shutdown request on. *)
Definition shutdown (logger : zerolog.Logger) (w : World)
    : list Action * Termination :=
  let before :=
    (log_all (zerolog.emit logger zerolog.InfoLevel None []
                "shutting down server")
     ++ [Shutdown (30 * Second)]
     ++ (if goroutine_logs w
         then log_all (zerolog.emit logger zerolog.InfoLevel None []
                         "server stopped")
         else []))%list in
  match Server_Shutdown (30 * Second) w with
  | Some err =>
      let '(acts, t) := Fatal logger err "failed to shutdown server" in
      ((before ++ acts)%list, t)
  | None => (before, Exit 0)
  end.

(** The goroutine started by [main]: what it does before any shutdown,
    and how it ends the process if it does. *)
Definition serve (logger : zerolog.Logger) (cfg : config.Config) (w : World)
    : list Action * option Termination :=
  let started :=
    (log_all (zerolog.emit logger zerolog.InfoLevel None
                [("port", zerolog.FInt (config.Port (config.Server cfg)))]
                "server started")
     ++ [ListenAndServe (config.Address (config.Server cfg))
                        (config.Port (config.Server cfg))])%list in
  match listen_error w with
  | None => (started, None)
  | Some http_ErrServerClosed =>
      ((started ++ log_all (zerolog.emit logger zerolog.InfoLevel None []
                              "server stopped"))%list, None)
  | Some err =>
      let '(acts, t) := Fatal logger err "failed to start server" in
      ((started ++ acts)%list, Some t)
  end.

(** The logger [main] starts with. *)
Definition start_logger (version : string) : zerolog.Logger :=
  zerolog.With_Str "version" version (zerolog.With_Timestamp zerolog.New).

(** [main] once the configuration is loaded.  The goroutine is placed
    before the wait for a signal: a failure to listen ends the process
    before any signal is looked at. *)
Definition run (logger : zerolog.Logger) (cfg : config.Config) (w : World)
    : list Action * Termination :=
  let logger := zerolog.With_Level (config.Config_LogLevel cfg) logger in
  let startup :=
    (log_all (zerolog.emit logger zerolog.InfoLevel None
                [("config", zerolog.FInterface cfg)] "config loaded")
     ++ (if config.Config_IsProd cfg then [SetMode ReleaseMode]
         else []))%list in
  match serve logger cfg w with
  | (served, Some t) => ((startup ++ served)%list, t)
  | (served, None) =>
      match receive (Notify [SIGINT; SIGTERM]) (incoming w) with
      | inr t => ((startup ++ served)%list, t)
      | inl _ =>
          let '(acts, t) := shutdown logger w in
          ((startup ++ served ++ acts)%list, t)
      end
  end.

Definition main (w : World) : list Action * Termination :=
  let logger := start_logger (version w) in
  let '(res, fx) := config.LoadConfig logger (dotenv w) (environ w) in
  let loading := log_all (config.logged fx) in
  match res with
  | (_, Some err) =>
      let '(acts, t) := Fatal logger err "failed to load config" in
      ((loading ++ acts)%list, t)
  | (None, None) =>
      (* a nil config is dereferenced by [config.LogLevel()] *)
      (loading, Exit 2)
  | (Some cfg, None) =>
      let '(acts, t) := run logger cfg w in
      ((loading ++ acts)%list, t)
  end.

End server.

(** ** The vocabulary of the specification *)

Module spec.

Definition is_digit (c : ascii) : bool :=
  let b := strconv.byte_of c in (48 <=? b) && (b <=? 57).

(** The number written by a string of decimal digits, read after [acc]. *)
Fixpoint digits_value (acc : Z) (s : string) : option Z :=
  match s with
  | EmptyString => Some acc
  | String c rest =>
      if is_digit c then digits_value (acc * 10 + (strconv.byte_of c - 48)) rest
      else None
  end.

(** "Parses as an integer": an optional sign and at least one decimal
    digit, of any length. *)
Definition decimal_value (s : string) : option Z :=
  match s with
  | EmptyString => None
  | String c rest =>
      if Ascii.eqb c "+" then
        match rest with EmptyString => None | _ => digits_value 0 rest end
      else if Ascii.eqb c "-" then
        match rest with
        | EmptyString => None
        | _ => Z.opp <$> digits_value 0 rest
        end
      else digits_value 0 s
  end.

Definition log_levels : list string := ["debug"; "info"; "warn"; "error"].
Definition env_tags : list string := ["local"; "dev"; "staging"; "prod"].

Definition PORT : string := "SERVER_PORT".
Definition LOG_LEVEL : string := "SERVER_LOG_LEVEL".
Definition ENV : string := "SERVER_ENV".
Definition ADDRESS : string := "SERVER_ADDRESS".

(** The port variable parses as an integer in [1,65535]. *)
Definition port_valid (envs : gmap string string) (p : Z) : Prop :=
  exists v, envs !! PORT = Some v /\ decimal_value v = Some p
            /\ 1 <= p <= 65535.

(** The port variable is outside [1,65535]: it holds an integer below 1 or
    above 65535, or something that is no integer at all. *)
Definition port_out_of_range (envs : gmap string string) : Prop :=
  exists v, envs !! PORT = Some v
            /\ forall p, decimal_value v = Some p -> p < 1 \/ 65535 < p.

(** The variable is absent or holds one of the values. *)
Definition absent_or_among (envs : gmap string string) (key : string)
    (vals : list string) : Prop :=
  envs !! key = None \/ exists v, envs !! key = Some v /\ In v vals.

(** The variable holds a value outside the enumeration. *)
Definition outside (envs : gmap string string) (key : string)
    (vals : list string) : Prop :=
  exists v, envs !! key = Some v /\ ~ In v vals.

(** The level a name of the enumeration stands for. *)
Definition level_named (name : string) : option zerolog.Level :=
  if String.eqb name "debug" then Some zerolog.DebugLevel
  else if String.eqb name "info" then Some zerolog.InfoLevel
  else if String.eqb name "warn" then Some zerolog.WarnLevel
  else if String.eqb name "error" then Some zerolog.ErrorLevel
  else None.

(** The range of a 32-bit [int]. *)
Definition in_int32 (p : Z) : bool :=
  (-2147483648 <=? p) && (p <=? 2147483647).

(** The requests of the two probes. *)
Definition GET_live (l : option zerolog.Logger) : gin.Request :=
  {| gin.Method := "GET"; gin.Path := "/health/live"; gin.ctx_logger := l |}.

Definition GET_ready (l : option zerolog.Logger) : gin.Request :=
  {| gin.Method := "GET"; gin.Path := "/health/ready"; gin.ctx_logger := l |}.

(** An engine with the routes of [health.InitRoutes] and no middleware:
    what the handlers do by themselves. *)
Definition health_only {E} `{GoError E}
    (getHealth : health.HealthResult * option E) : gin.Engine :=
  health.InitRoutes getHealth (gin.Group "/health" gin.New) gin.New.

(** The state in which the first handler of a chain is called. *)
Definition serving (r : gin.Request) (errout : list gin.RecoveryLine)
    : gin.Exec :=
  {| gin.ctx := {| gin.Request_ := r;
                   gin.Writer := gin.Writer (gin.reset r);
                   gin.index := 0;
                   gin.Errors := [] |};
     gin.DefaultErrorWriter := errout |}.

(** The state a served request is left in: the response sent, the index
    the chain stopped at, no error attached to the context. *)
Definition answered (r : gin.Request) (code : Z) (ct : option string)
    (body : list JSON) (idx : Z) (errout : list gin.RecoveryLine) : gin.Exec :=
  {| gin.ctx := {| gin.Request_ := r;
                   gin.Writer := {| gin.status := code; gin.written := true;
                                    gin.content_type := ct;
                                    gin.body := body |};
                   gin.index := idx;
                   gin.Errors := [] |};
     gin.DefaultErrorWriter := errout |}.

Definition nil_dereference : gin.PanicValue :=
  gin.runtime_Error "invalid memory address or nil pointer dereference".


(** [LoadConfig], called as [main] calls it, returns [cfg] and no error. *)
Definition loaded (w : server.World) (cfg : config.Config) : Prop :=
  fst (@config.LoadConfig config.Config
         (server.start_logger (server.version w))
         (server.dotenv w) (server.environ w)) = (Some cfg, None).

(** What the receive on [quit] gives in world [w]. *)
Definition first_signal (w : server.World)
    : signal.Signal + signal.Termination :=
  signal.receive (signal.Notify [signal.SIGINT; signal.SIGTERM])
    (server.incoming w).

(** The drain deadline passes with connections still active. *)
Definition deadline_expires (w : server.World) : Prop :=
  match server.drained_after w with
  | Some t => 30 * server.Second <= t
  | None => True
  end.

(** The line [logger.Fatal().Err(err).Msg(msg)] writes in [main]. *)
Definition fatal_event (version : string) (err : error) (msg : string)
    : zerolog.Event config.Config :=
  {| zerolog.ev_level := zerolog.FatalLevel;
     zerolog.ev_context := [("version", version)];
     zerolog.ev_err := Some err;
     zerolog.ev_fields := [];
     zerolog.ev_msg := msg |}.

(** The modes set and the deadlines of the [Shutdown] calls of a run. *)
Definition set_modes (trace : list server.Action) : list server.Mode :=
  flat_map (fun a => match a with server.SetMode m => [m] | _ => [] end)
           trace.

Definition shutdown_calls (trace : list server.Action) : list Z :=
  flat_map (fun a => match a with server.Shutdown t => [t] | _ => [] end)
           trace.

(** The world [w] with other signals sent to the process. *)
Definition with_incoming (sigs : list signal.Signal) (w : server.World)
    : server.World :=
  {| server.version := server.version w;
     server.environ := server.environ w;
     server.dotenv := server.dotenv w;
     server.listen_error := server.listen_error w;
     server.incoming := sigs;
     server.drained_after := server.drained_after w;
     server.close_error := server.close_error w;
     server.goroutine_logs := server.goroutine_logs w |}.

(** The configuration [c] with another environment tag. *)
Definition with_env (tag : string) (c : config.Config) : config.Config :=
  {| config.Server :=
       {| config.Address := config.Address (config.Server c);
          config.Port := config.Port (config.Server c);
          config.LogLevel := config.LogLevel (config.Server c);
          config.Env := tag |} |}.

End spec.

(** ** Concrete inputs *)

Module sample.

Definition environ : gmap string string :=
  <["SERVER_PORT" := "8080"]> (<["SERVER_ENV" := "local"]> ∅).

Definition no_dotenv : gmap string string + error :=
  inr (errorString "open .env: no such file or directory").

Definition empty_level_environ : gmap string string :=
  <["SERVER_LOG_LEVEL" := ""]> environ.

Definition out_of_range_environ : gmap string string :=
  <["SERVER_PORT" := "65536"]> environ.

Definition cfg : config.Config :=
  {| config.Server :=
       {| config.Address := ""; config.Port := 8080;
          config.LogLevel := "info"; config.Env := "local" |} |}.

Definition warn_cfg : config.Config :=
  {| config.Server :=
       {| config.Address := ""; config.Port := 8080;
          config.LogLevel := "warn"; config.Env := "local" |} |}.

(** SIGTERM arrives while a request that never completes is in flight. *)
Definition stuck_world : server.World :=
  {| server.version := "1.0.0";
     server.environ := environ;
     server.dotenv := no_dotenv;
     server.listen_error := None;
     server.incoming := [signal.SIGTERM];
     server.drained_after := None;
     server.close_error := None;
     server.goroutine_logs := true |}.

(** SIGUSR1, then SIGINT, with no request in flight. *)
Definition calm_world : server.World :=
  {| server.version := "1.0.0";
     server.environ := environ;
     server.dotenv := no_dotenv;
     server.listen_error := None;
     server.incoming := [signal.SIGUSR1; signal.SIGINT];
     server.drained_after := Some 0;
     server.close_error := None;
     server.goroutine_logs := true |}.


End sample.

(** ** What the further properties talk about *)

Module observe.

(** The log level [env.Parse] stores: the variable's value, or the default
    when the variable is unset or empty. *)
Definition log_level_read (envs : gmap string string) : string :=
  match envs !! spec.LOG_LEVEL with
  | Some v => if String.eqb v "" then "info" else v
  | None => "info"
  end.

(** The configuration [env.Parse] builds from an environment whose port
    variable reads as [p]. *)
Definition config_read (envs : gmap string string) (p : Z) : config.Config :=
  {| config.Server :=
       {| config.Address := default "" (envs !! spec.ADDRESS);
          config.Port := p;
          config.LogLevel := log_level_read envs;
          config.Env := default "" (envs !! spec.ENV) |} |}.

(** The log-level variable is unset, empty, or one of the enumeration. *)
Definition level_acceptable (envs : gmap string string) : Prop :=
  envs !! spec.LOG_LEVEL = None \/ envs !! spec.LOG_LEVEL = Some ""
  \/ exists l, envs !! spec.LOG_LEVEL = Some l /\ In l spec.log_levels.

(** The variable is set in the process environment (empty or not). *)
Definition set_in (environ : gmap string string) (key : string) : Prop :=
  is_Some (environ !! key).

(** The tag a port fails on, if any: zero fails [required], a negative
    number [gt=0], a number above 65535 [lt=65536]. *)
Definition port_defect (p : Z) : option string :=
  if p =? 0 then Some "required"
  else if p <? 0 then Some "gt"
  else if 65535 <? p then Some "lt"
  else None.

(** The tag an enumerated string fails on, if any: the empty string fails
    [required], any other string outside the enumeration [oneof]. *)
Definition enum_defect (vals : list string) (v : string) : option string :=
  if String.eqb v "" then Some "required"
  else if existsb (String.eqb v) vals then None
  else Some "oneof".

Definition field_error (ns : string) (defect : option string)
    : list validator.FieldError :=
  match defect with
  | Some tag => [{| validator.Namespace := ns; validator.Tag := tag |}]
  | None => []
  end.

(** The field errors of a configuration: one per defective field, in the
    order Port, LogLevel, Env. *)
Definition expected_errors (c : config.Config) : list validator.FieldError :=
  (field_error "Config.Server.Port"
     (port_defect (config.Port (config.Server c)))
   ++ field_error "Config.Server.LogLevel"
        (enum_defect spec.log_levels (config.LogLevel (config.Server c)))
   ++ field_error "Config.Server.Env"
        (enum_defect spec.env_tags (config.Env (config.Server c))))%list.

(** The first rune of [s] under simple folding, as the code of an ASCII
    letter in lower case, and the rest of [s]; [None] when [s] is empty or
    starts with a rune that folds to no ASCII character. *)
Definition fold_step (s : string) : option (Z * string) :=
  match s with
  | EmptyString => None
  | String c s' =>
      let b := strconv.byte_of c in
      if b <? 128 then Some (strings.lower b, s')
      else
        match s' with
        | String c2 (String c3 s3) =>
            if (b =? 226) && (strconv.byte_of c2 =? 132)
               && (strconv.byte_of c3 =? 170)
            then Some (107, s3)
            else if (b =? 197) && (strconv.byte_of c2 =? 191)
            then Some (115, String c3 s3)
            else None
        | String c2 s2 =>
            if (b =? 197) && (strconv.byte_of c2 =? 191)
            then Some (115, s2)
            else None
        | EmptyString => None
        end
  end.

(** An ASCII text with its letters in lower case, as codes. *)
Definition folded (t : string) : list Z :=
  map (fun c => strings.lower (strconv.byte_of c)) (list_ascii_of_string t).


(** The warning [LoadConfig] writes through the logger of [main]. *)
Definition dotenv_warning (version : string) (err : error)
    : zerolog.Event config.Config :=
  {| zerolog.ev_level := zerolog.WarnLevel;
     zerolog.ev_context := [("version", version)];
     zerolog.ev_err := Some err;
     zerolog.ev_fields := [];
     zerolog.ev_msg := "failed to load environment variables" |}.

(** What [main] has written when [LoadConfig] returns. *)
Definition loading_lines (w : server.World) : list server.Action :=
  match server.dotenv w with
  | inr err => [server.Log (dotenv_warning (server.version w) err)]
  | inl _ => []
  end.

End observe.

Module inputs.

Definition full_environ : gmap string string :=
  <["SERVER_ADDRESS" := "127.0.0.1"]>
    (<["SERVER_LOG_LEVEL" := "debug"]>
       (<["SERVER_PORT" := "8080"]> (<["SERVER_ENV" := "local"]> ∅))).

(** A .env file that sets an invalid port and tag. *)
Definition hostile_dotenv : gmap string string + error :=
  inl (<["SERVER_PORT" := "0"]> (<["SERVER_ENV" := "nowhere"]> ∅)).

Definition bad_port_environ : gmap string string :=
  <["SERVER_PORT" := "80a"]> ∅.

Definition shouting_cfg : config.Config :=
  {| config.Server :=
       {| config.Address := ""; config.Port := 8080;
          config.LogLevel := "FATAL"; config.Env := "local" |} |}.

Definition quiet_cfg : config.Config :=
  {| config.Server :=
       {| config.Address := ""; config.Port := 8080;
          config.LogLevel := "error"; config.Env := "local" |} |}.



Definition port_taken : error :=
  errorString "listen tcp :8080: bind: address already in use".


Definition file_missing : error :=
  errorString "open .env: no such file or directory".

(** No variable is set and there is no .env file. *)
Definition unconfigured_world : server.World :=
  {| server.version := "1.0.0";
     server.environ := ∅;
     server.dotenv := sample.no_dotenv;
     server.listen_error := None;
     server.incoming := [signal.SIGTERM];
     server.drained_after := Some 0;
     server.close_error := None;
     server.goroutine_logs := true |}.

(** The port is in use. *)
Definition busy_world : server.World :=
  {| server.version := "1.0.0";
     server.environ := sample.environ;
     server.dotenv := sample.no_dotenv;
     server.listen_error := Some port_taken;
     server.incoming := [signal.SIGTERM];
     server.drained_after := Some 0;
     server.close_error := None;
     server.goroutine_logs := true |}.

(** Log level error, then SIGTERM with no request in flight. *)
Definition quiet_world : server.World :=
  {| server.version := "1.0.0";
     server.environ := <["SERVER_LOG_LEVEL" := "error"]> sample.environ;
     server.dotenv := sample.no_dotenv;
     server.listen_error := None;
     server.incoming := [signal.SIGTERM];
     server.drained_after := Some 0;
     server.close_error := None;
     server.goroutine_logs := true |}.


End inputs.

(** * Properties *)

(** ** Integer parsing agrees with the decimal reading *)

Lemma digits_value_ge s :
  forall n v, 0 <= n -> spec.digits_value n s = Some v -> n <= v.
Proof.
  induction s as [|c s IH]; intros n v Hn; simpl.
  - intros [= <-]. lia.
  - unfold spec.is_digit. destruct (_ && _) eqn:Hd; [|discriminate].
    apply andb_true_iff in Hd as [H1 H2].
    apply Z.leb_le in H1, H2. intros Hv. apply IH in Hv; lia.
Qed.

Lemma maxUint64_val : strconv.maxUint64 = 18446744073709551615.
Proof. reflexivity. Qed.

Lemma ParseUint_loop_spec maxVal s :
  0 <= maxVal <= strconv.maxUint64 ->
  forall n, 0 <= n <= maxVal ->
    match spec.digits_value n s with
    | Some v =>
        strconv.ParseUint_loop maxVal n s
        = if v <=? maxVal then (v, None) else (maxVal, Some strconv.ErrRange)
    | None =>
        strconv.ParseUint_loop maxVal n s = (0, Some strconv.ErrSyntax)
        \/ strconv.ParseUint_loop maxVal n s = (maxVal, Some strconv.ErrRange)
    end.
Proof.
  intros Hmax. rewrite maxUint64_val in Hmax.
  induction s as [|c s IH]; intros n Hn; simpl.
  - destruct (Z.leb_spec n maxVal); [reflexivity | lia].
  - unfold spec.is_digit.
    set (b := strconv.byte_of c).
    destruct (Z.leb_spec 48 b), (Z.leb_spec b 57); simpl;
      try (replace ((0 <=? b - 48) && (b - 48 <=? 9)) with false
             by (symmetry; apply andb_false_iff; rewrite !Z.leb_gt; lia);
           simpl; auto; fail).
    replace ((0 <=? b - 48) && (b - 48 <=? 9)) with true
      by (symmetry; apply andb_true_iff; rewrite !Z.leb_le; lia).
    simpl. rewrite maxUint64_val.
    change (18446744073709551615 / 10 + 1) with 1844674407370955162.
    destruct (Z.leb_spec 1844674407370955162 n).
    { destruct (spec.digits_value _ s) as [v|] eqn:Hv; [|auto].
      apply digits_value_ge in Hv; [|lia]. destruct (Z.leb_spec v maxVal); [lia | reflexivity]. }
    destruct (Z.ltb_spec 18446744073709551615 (n * 10 + (b - 48))); simpl.
    { destruct (spec.digits_value _ s) as [v|] eqn:Hv; [|auto].
      apply digits_value_ge in Hv; [|lia]. destruct (Z.leb_spec v maxVal); [lia | reflexivity]. }
    destruct (Z.ltb_spec maxVal (n * 10 + (b - 48))); simpl.
    { destruct (spec.digits_value _ s) as [v|] eqn:Hv; [|auto].
      apply digits_value_ge in Hv; [|lia]. destruct (Z.leb_spec v maxVal); [lia | reflexivity]. }
    apply IH. lia.
Qed.

Lemma ParseUint32_spec s :
  s <> "" ->
  match spec.digits_value 0 s with
  | Some u =>
      strconv.ParseUint s 32
      = if u <=? 4294967295 then (u, None)
        else (4294967295, Some strconv.ErrRange)
  | None =>
      strconv.ParseUint s 32 = (0, Some strconv.ErrSyntax)
      \/ strconv.ParseUint s 32 = (4294967295, Some strconv.ErrRange)
  end.
Proof.
  intros Hs.
  assert (Hloop : strconv.ParseUint s 32 = strconv.ParseUint_loop 4294967295 0 s)
    by (destruct s; [congruence | reflexivity]).
  rewrite Hloop.
  apply (ParseUint_loop_spec 4294967295 s); rewrite ?maxUint64_val; lia.
Qed.

Lemma ParseInt32_spec v :
  match spec.decimal_value v with
  | Some p =>
      if spec.in_int32 p then strconv.ParseInt v 32 = (p, None)
      else exists x, strconv.ParseInt v 32 = (x, Some strconv.ErrRange)
  | None => exists x e, strconv.ParseInt v 32 = (x, Some e)
  end.
Proof.
  destruct v as [|c rest]; [simpl; eauto|].
  unfold spec.decimal_value, strconv.ParseInt.
  change (2 ^ ((if 32 =? 0 then strconv.IntSize else 32) - 1)) with 2147483648.
  destruct (Ascii.eqb c "+") eqn:Hplus.
  { apply Ascii.eqb_eq in Hplus as ->. simpl orb. cbv iota.
    destruct rest as [|c2 r2]; [simpl; eauto|].
    pose proof (ParseUint32_spec (String c2 r2) ltac:(discriminate)) as Hu.
    destruct (spec.digits_value 0 (String c2 r2)) as [u|] eqn:Hd.
    - pose proof (digits_value_ge _ 0 u ltac:(lia) Hd) as Hge.
      rewrite Hu. unfold spec.in_int32.
      destruct (Z.leb_spec u 4294967295); simpl;
        destruct (Z.leb_spec 2147483648 u), (Z.leb_spec u 2147483647),
                 (Z.leb_spec (-2147483648) u); simpl; try lia; eauto.
    - destruct Hu as [-> | ->]; simpl; eauto. }
  destruct (Ascii.eqb c "-") eqn:Hminus.
  { apply Ascii.eqb_eq in Hminus as ->. simpl orb. cbv iota.
    destruct rest as [|c2 r2]; [simpl; eauto|].
    pose proof (ParseUint32_spec (String c2 r2) ltac:(discriminate)) as Hu.
    destruct (spec.digits_value 0 (String c2 r2)) as [u|] eqn:Hd.
    - pose proof (digits_value_ge _ 0 u ltac:(lia) Hd) as Hge.
      rewrite Hu. unfold spec.in_int32. simpl fmap.
      destruct (Z.leb_spec u 4294967295); simpl;
        destruct (Z.ltb_spec 2147483648 u), (Z.leb_spec (- u) 2147483647),
                 (Z.leb_spec (-2147483648) (- u)); simpl; try lia; eauto.
    - destruct Hu as [-> | ->]; simpl; eauto. }
  simpl orb. cbv iota.
  pose proof (ParseUint32_spec (String c rest) ltac:(discriminate)) as Hu.
  destruct (spec.digits_value 0 (String c rest)) as [u|] eqn:Hd.
  - pose proof (digits_value_ge _ 0 u ltac:(lia) Hd) as Hge.
    rewrite Hu. unfold spec.in_int32.
    destruct (Z.leb_spec u 4294967295); simpl;
      destruct (Z.leb_spec 2147483648 u), (Z.leb_spec u 2147483647),
               (Z.leb_spec (-2147483648) u); simpl; try lia; eauto.
  - destruct Hu as [-> | ->]; simpl; eauto.
Qed.

(** ** Reading and validating the fields of [ServerConfig] *)

Lemma getOr_nodefault key envs :
  env.getOr key "" false envs
  = match envs !! key with
    | Some v => (v, true, false)
    | None => ("", false, false)
    end.
Proof.
  unfold env.getOr. destruct (envs !! key) as [v|]; simpl.
  - rewrite !andb_false_r. reflexivity.
  - reflexivity.
Qed.

Lemma getOr_default key d envs :
  key <> "" ->
  env.getOr key d true envs
  = match envs !! key with
    | Some v => if String.eqb v "" then (d, true, true) else (v, true, false)
    | None => (d, true, true)
    end.
Proof.
  intros Hk. unfold env.getOr.
  destruct (String.eqb_spec key ""); [contradiction|].
  destruct (envs !! key) as [v|]; simpl; [|reflexivity].
  destruct (String.eqb v ""); reflexivity.
Qed.

Lemma process_string_plain key envs :
  config.process_string (config.params key None) envs ""
  = (default "" (envs !! ("SERVER_" ++ key)), []).
Proof.
  unfold config.process_string, env.get, config.params; simpl.
  rewrite getOr_nodefault.
  destruct (envs !! _) as [v|]; simpl; [|reflexivity].
  destruct (String.eqb_spec v ""); congruence.
Qed.

Lemma process_string_LogLevel envs :
  config.process_string config.LogLevel_params envs ""
  = (match envs !! spec.LOG_LEVEL with
     | Some v => if String.eqb v "" then "info" else v
     | None => "info"
     end, []).
Proof.
  unfold config.process_string, env.get, config.LogLevel_params, config.params; simpl.
  rewrite getOr_default by discriminate.
  change ("SERVER_LOG_LEVEL") with spec.LOG_LEVEL.
  destruct (envs !! _) as [v|]; simpl; [|reflexivity].
  destruct (String.eqb_spec v ""); simpl; [reflexivity|].
  destruct (String.eqb_spec v ""); congruence.
Qed.

Lemma process_int_Port envs :
  config.process_int "Port" config.Port_params envs 0
  = match envs !! spec.PORT with
    | None => (0, [])
    | Some v =>
        if String.eqb v "" then (0, [])
        else match strconv.ParseInt v 32 with
             | (i, None) => (i, [])
             | (_, Some e) => (0, [env.ParseError "Port" "int" e])
             end
    end.
Proof.
  unfold config.process_int, env.get, config.Port_params, config.params,
    env.parse_int; simpl.
  rewrite getOr_nodefault. change ("SERVER_PORT") with spec.PORT.
  destruct (envs !! _) as [v|]; simpl; [|reflexivity].
  destruct (String.eqb v ""); [reflexivity|].
  destruct (strconv.ParseInt v 32) as [i [e|]]; reflexivity.
Qed.

Lemma existsb_eqb_In v vals : existsb (String.eqb v) vals = true <-> In v vals.
Proof.
  rewrite existsb_exists. split.
  - intros (x & Hx & Heq). apply String.eqb_eq in Heq. congruence.
  - intros Hin. exists v. split; [assumption | apply String.eqb_refl].
Qed.

Lemma validate_oneof ns vals v :
  ~ In "" vals ->
  validator.validate_string ns [validator.required_string; validator.oneof vals] v = []
  <-> In v vals.
Proof.
  intros Hne. unfold validator.validate_string. simpl.
  destruct (String.eqb_spec v "") as [-> | Hv]; simpl.
  - split; [discriminate | contradiction].
  - destruct (existsb (String.eqb v) vals) eqn:Hex; simpl.
    + apply existsb_eqb_In in Hex. tauto.
    + split; [discriminate|]. intros Hin. apply existsb_eqb_In in Hin. congruence.
Qed.

Lemma validate_Port ns p :
  validator.validate_int ns config.Port_tags p = [] <-> 1 <= p <= 65535.
Proof.
  unfold validator.validate_int, config.Port_tags. simpl.
  destruct (Z.eqb_spec p 0); simpl; [split; [discriminate | lia]|].
  destruct (Z.ltb_spec 0 p); simpl; [|split; [discriminate | lia]].
  destruct (Z.ltb_spec p 65536); simpl; [|split; [discriminate | lia]].
  split; [lia | reflexivity].
Qed.

Lemma Struct_None c :
  config.Struct c = None
  <-> 1 <= config.Port (config.Server c) <= 65535
      /\ In (config.LogLevel (config.Server c)) spec.log_levels
      /\ In (config.Env (config.Server c)) spec.env_tags.
Proof.
  unfold config.Struct.
  rewrite <- (validate_Port "Config.Server.Port").
  rewrite <- (validate_oneof "Config.Server.LogLevel" spec.log_levels)
    by (simpl; intuition discriminate).
  rewrite <- (validate_oneof "Config.Server.Env" spec.env_tags)
    by (simpl; intuition discriminate).
  unfold config.LogLevel_tags, config.Env_tags, spec.log_levels, spec.env_tags.
  destruct (validator.validate_int _ _ _); simpl.
  - destruct (validator.validate_string "Config.Server.LogLevel" _ _); simpl.
    + destruct (validator.validate_string _ _ _); simpl; intuition congruence.
    + intuition congruence.
  - intuition congruence.
Qed.

Lemma Struct_cases c :
  config.Struct c = None \/ exists e, config.Struct c = Some e.
Proof. destruct (config.Struct c); eauto. Qed.

Lemma LoadConfig_fst A logger dotenv environ :
  fst (@config.LoadConfig A logger dotenv environ)
  = match config.Parse (fst (godotenv.Load dotenv environ)) config.zero with
    | (_, Some e) => (None, Some e)
    | (c, None) =>
        match config.Struct c with
        | Some e => (None, Some e)
        | None => (Some c, None)
        end
    end.
Proof.
  unfold config.LoadConfig.
  destruct (godotenv.Load dotenv environ) as [envs err]; simpl.
  destruct (config.Parse envs config.zero) as [c [e|]]; [reflexivity|].
  destruct (config.Struct c); reflexivity.
Qed.

Lemma Parse_zero envs :
  config.Parse envs config.zero
  = let mk port :=
      {| config.Server :=
           {| config.Address := default "" (envs !! spec.ADDRESS);
              config.Port := port;
              config.LogLevel :=
                match envs !! spec.LOG_LEVEL with
                | Some v => if String.eqb v "" then "info" else v
                | None => "info"
                end;
              config.Env := default "" (envs !! spec.ENV) |} |} in
    match envs !! spec.PORT with
    | None => (mk 0, None)
    | Some v =>
        if String.eqb v "" then (mk 0, None)
        else match strconv.ParseInt v 32 with
             | (i, None) => (mk i, None)
             | (_, Some e) =>
                 (mk 0, Some (env_AggregateError [env.ParseError "Port" "int" e]))
             end
    end.
Proof.
  unfold config.Parse, config.zero; cbn [config.Server config.Address config.Port config.LogLevel config.Env].
  unfold config.Address_params, config.Env_params.
  rewrite !process_string_plain, process_string_LogLevel, process_int_Port.
  change ("SERVER_" ++ "ADDRESS") with spec.ADDRESS.
  change ("SERVER_" ++ "ENV") with spec.ENV.
  destruct (envs !! spec.PORT) as [v|]; [|reflexivity].
  destruct (String.eqb v ""); [reflexivity|].
  destruct (strconv.ParseInt v 32) as [i [e|]]; reflexivity.
Qed.

Lemma LoadConfig_cases A logger dotenv environ :
  (exists c, fst (@config.LoadConfig A logger dotenv environ) = (Some c, None))
  \/ (exists e, fst (@config.LoadConfig A logger dotenv environ) = (None, Some e)).
Proof.
  rewrite LoadConfig_fst.
  destruct (config.Parse _ _) as [c [e|]]; [eauto|].
  destruct (config.Struct c); eauto.
Qed.

Lemma decimal_value_nonempty v p : spec.decimal_value v = Some p -> v <> "".
Proof. intros Hd ->. discriminate. Qed.

Lemma ParseInt32_ok_inv v i :
  strconv.ParseInt v 32 = (i, None) -> spec.decimal_value v = Some i.
Proof.
  intros Hp. pose proof (ParseInt32_spec v) as Hs.
  destruct (spec.decimal_value v) as [p|].
  - destruct (spec.in_int32 p).
    + congruence.
    + destruct Hs as [x Hx]. congruence.
  - destruct Hs as (x & e & Hx). congruence.
Qed.

Lemma ParseInt32_port v p :
  spec.decimal_value v = Some p -> 1 <= p <= 65535 ->
  strconv.ParseInt v 32 = (p, None).
Proof.
  intros Hd Hr. pose proof (ParseInt32_spec v) as Hs. rewrite Hd in Hs.
  replace (spec.in_int32 p) with true in Hs; [assumption|].
  symmetry. unfold spec.in_int32. apply andb_true_iff. rewrite !Z.leb_le. lia.
Qed.

Lemma LoadConfig_ok_inv A logger dotenv environ c :
  fst (@config.LoadConfig A logger dotenv environ) = (Some c, None) ->
  let envs := fst (godotenv.Load dotenv environ) in
  spec.port_valid envs (config.Port (config.Server c))
  /\ (envs !! spec.LOG_LEVEL = None \/ envs !! spec.LOG_LEVEL = Some ""
      \/ exists l, envs !! spec.LOG_LEVEL = Some l /\ In l spec.log_levels)
  /\ (exists tag, envs !! spec.ENV = Some tag /\ In tag spec.env_tags).
Proof.
  rewrite LoadConfig_fst, Parse_zero. intros Hload envs. fold envs in Hload.
  cbv zeta in Hload.
  assert (Hgen : forall port,
    config.Struct
      {| config.Server :=
           {| config.Address := default "" (envs !! spec.ADDRESS);
              config.Port := port;
              config.LogLevel :=
                match envs !! spec.LOG_LEVEL with
                | Some v => if String.eqb v "" then "info" else v
                | None => "info"
                end;
              config.Env := default "" (envs !! spec.ENV) |} |} = None ->
    1 <= port <= 65535
    /\ (envs !! spec.LOG_LEVEL = None \/ envs !! spec.LOG_LEVEL = Some ""
        \/ exists l, envs !! spec.LOG_LEVEL = Some l /\ In l spec.log_levels)
    /\ (exists tag, envs !! spec.ENV = Some tag /\ In tag spec.env_tags)).
  { intros port Hs. apply Struct_None in Hs. simpl in Hs.
    destruct Hs as (Hp & Hl & He). split; [assumption|]. split.
    - destruct (envs !! spec.LOG_LEVEL) as [l|]; [|auto].
      destruct (String.eqb_spec l "") as [Heq | Hne]; [subst; auto|].
      right; right. eauto.
    - destruct (envs !! spec.ENV) as [tag|]; [eauto|].
      simpl in He. intuition discriminate. }
  destruct (envs !! spec.PORT) as [v|] eqn:Hv.
  - destruct (String.eqb_spec v "") as [Heq | Hne].
    + destruct (config.Struct _) eqn:Hs; [discriminate|].
      apply Hgen in Hs. lia.
    + destruct (strconv.ParseInt v 32) as [i [e|]] eqn:Hp; [discriminate|].
      destruct (config.Struct _) eqn:Hs; [discriminate|].
      injection Hload as <-. simpl.
      apply Hgen in Hs. destruct Hs as (Hr & Hl & He).
      split; [|auto]. exists v. split; [assumption|].
      split; [apply ParseInt32_ok_inv; assumption | assumption].
  - destruct (config.Struct _) eqn:Hs; [discriminate|].
    apply Hgen in Hs. lia.
Qed.

(** ** Claims on the configuration loader *)

(** C4.  Whenever the environment read by the loader (the process
    environment after the .env file was applied) has a port variable that
    parses as an integer in [1,65535], a log-level variable that is absent
    or one of debug, info, warn, error, and an environment tag among local,
    dev, staging, prod, [LoadConfig] returns no error and a configuration
    holding the parsed port, the log level (info when absent), the tag and
    the address (empty when absent). *)
Theorem LoadConfig_accepts_valid_environment :
  forall (A : Type) logger dotenv environ p tag,
    let envs := fst (godotenv.Load dotenv environ) in
    spec.port_valid envs p ->
    spec.absent_or_among envs spec.LOG_LEVEL spec.log_levels ->
    envs !! spec.ENV = Some tag -> In tag spec.env_tags ->
    fst (@config.LoadConfig A logger dotenv environ)
    = (Some {| config.Server :=
                 {| config.Address := default "" (envs !! spec.ADDRESS);
                    config.Port := p;
                    config.LogLevel := default "info" (envs !! spec.LOG_LEVEL);
                    config.Env := tag |} |},
       None).
Proof.
  intros A logger dotenv environ p tag envs (v & Hv & Hd & Hr) Hl He Htag.
  rewrite LoadConfig_fst, Parse_zero. fold envs. cbv zeta.
  rewrite Hv, He.
  destruct (String.eqb_spec v "") as [Heq | _];
    [exfalso; revert Heq; eapply decimal_value_nonempty; eassumption|].
  rewrite (ParseInt32_port v p Hd Hr).
  assert (Hlevel : match envs !! spec.LOG_LEVEL with
                   | Some l => if String.eqb l "" then "info" else l
                   | None => "info"
                   end = default "info" (envs !! spec.LOG_LEVEL)
                   /\ In (default "info" (envs !! spec.LOG_LEVEL)) spec.log_levels).
  { destruct Hl as [-> | (l & -> & Hin)]; simpl.
    - auto.
    - destruct (String.eqb_spec l "") as [Heq | _]; [|auto].
      subst l. simpl in Hin. intuition discriminate. }
  destruct Hlevel as [-> Hin]. simpl default.
  destruct (config.Struct _) as [e|] eqn:Hs; [|reflexivity].
  exfalso.
  assert (Hnone : config.Struct
            {| config.Server :=
                 {| config.Address := default "" (envs !! spec.ADDRESS);
                    config.Port := p;
                    config.LogLevel := default "info" (envs !! spec.LOG_LEVEL);
                    config.Env := tag |} |} = None)
    by (apply Struct_None; simpl; auto).
  congruence.
Qed.

Lemma LoadConfig_accepts_valid_environment_witness :
  fst (@config.LoadConfig unit zerolog.New sample.no_dotenv sample.environ)
  = (Some {| config.Server :=
               {| config.Address := ""; config.Port := 8080;
                  config.LogLevel := "info"; config.Env := "local" |} |},
     None).
Proof.
  apply (LoadConfig_accepts_valid_environment unit zerolog.New sample.no_dotenv
           sample.environ 8080 "local").
  - exists "8080". split; [reflexivity|]. split; [reflexivity | lia].
  - left. reflexivity.
  - reflexivity.
  - simpl. auto.
Defined.

(** C5, as the code has it.  When the environment read by the loader lacks
    the port or the environment tag, or holds a port outside [1,65535], or
    a non-empty log level outside debug, info, warn, error, or an
    environment tag outside local, dev, staging, prod, [LoadConfig] returns
    an error and a nil configuration. *)
Theorem LoadConfig_rejects_invalid_environment :
  forall (A : Type) logger dotenv environ,
    let envs := fst (godotenv.Load dotenv environ) in
    envs !! spec.PORT = None
    \/ envs !! spec.ENV = None
    \/ spec.port_out_of_range envs
    \/ (exists l, envs !! spec.LOG_LEVEL = Some l /\ l <> ""
                  /\ ~ In l spec.log_levels)
    \/ spec.outside envs spec.ENV spec.env_tags ->
    exists e, fst (@config.LoadConfig A logger dotenv environ) = (None, Some e).
Proof.
  intros A logger dotenv environ envs Hbad.
  destruct (LoadConfig_cases A logger dotenv environ) as [[c Hc] | He];
    [exfalso | assumption].
  apply LoadConfig_ok_inv in Hc. fold envs in Hc. cbv zeta in Hc.
  destruct Hc as ((v & Hv & Hd & Hr) & Hl & (tag & Ht & Hin)).
  destruct Hbad as [Hp | [Hen | [(v' & Hv' & Hr') |
                   [(l & Hl' & Hne & Hout) | (t & Ht' & Hout)]]]].
  - congruence.
  - congruence.
  - assert (v' = v) by congruence. subst v'.
    specialize (Hr' _ Hd). lia.
  - destruct Hl as [Hl | [Hl | (l0 & Hl & Hin0)]]; congruence.
  - assert (t = tag) by congruence. subst t. contradiction.
Qed.

Lemma LoadConfig_rejects_invalid_environment_witness :
  exists e,
    fst (@config.LoadConfig unit zerolog.New sample.no_dotenv sample.out_of_range_environ)
    = (None, Some e).
Proof.
  apply (LoadConfig_rejects_invalid_environment unit zerolog.New sample.no_dotenv
           sample.out_of_range_environ).
  right; right; left. exists "65536".
  split; [reflexivity|].
  intros p Hp. vm_compute in Hp. injection Hp as <-. lia.
Defined.

(** C5 as stated fails: a log-level variable set to the empty string is
    outside the enumeration, yet the loader takes the default and
    succeeds. *)
Lemma LoadConfig_empty_log_level_accepted :
  spec.outside (fst (godotenv.Load sample.no_dotenv sample.empty_level_environ))
    spec.LOG_LEVEL spec.log_levels
  /\ fst (@config.LoadConfig unit zerolog.New sample.no_dotenv sample.empty_level_environ)
     = (Some {| config.Server :=
                  {| config.Address := ""; config.Port := 8080;
                     config.LogLevel := "info"; config.Env := "local" |} |},
        None).
Proof.
  split.
  - exists "". split; [reflexivity|]. simpl. intuition discriminate.
  - vm_compute. reflexivity.
Qed.

(** C8.  When reading the .env file fails, [LoadConfig] changes nothing in
    the environment, returns exactly what it returns when the file is read
    and holds no assignment, and the logger [main] passes writes one
    warning carrying the error. *)
Theorem LoadConfig_dotenv_failure_not_fatal :
  forall (A : Type) logger err environ version,
    fst (@config.LoadConfig A logger (inr err) environ)
    = fst (@config.LoadConfig A logger (inl ∅) environ)
    /\ config.environ_after (snd (@config.LoadConfig A logger (inr err) environ))
       = environ
    /\ config.logged (snd (@config.LoadConfig A logger (inr err) environ))
       = zerolog.emit logger zerolog.WarnLevel (Some err) []
           "failed to load environment variables"
    /\ config.logged
         (snd (@config.LoadConfig A
                 (zerolog.With_Str "version" version
                    (zerolog.With_Timestamp zerolog.New))
                 (inr err) environ))
       = [{| zerolog.ev_level := zerolog.WarnLevel;
             zerolog.ev_context := [("version", version)];
             zerolog.ev_err := Some err;
             zerolog.ev_fields := [];
             zerolog.ev_msg := "failed to load environment variables" |}].
Proof.
  intros A logger err environ version.
  split; [|split; [|split]].
  - rewrite !LoadConfig_fst. simpl. rewrite (right_id_L ∅ (∪)). reflexivity.
  - unfold config.LoadConfig. simpl.
    destruct (config.Parse environ config.zero) as [c [e|]]; [reflexivity|].
    destruct (config.Struct c); reflexivity.
  - unfold config.LoadConfig. simpl.
    destruct (config.Parse environ config.zero) as [c [e|]]; [reflexivity|].
    destruct (config.Struct c); reflexivity.
  - unfold config.LoadConfig. simpl.
    destruct (config.Parse environ config.zero) as [c [e|]]; [reflexivity|].
    destruct (config.Struct c); reflexivity.
Qed.

(** C9.  For a configuration that passes the validation of [LoadConfig],
    [zerolog.ParseLevel] returns no error on its log level, so the fallback
    of [LogLevel()] is not taken, and [LogLevel()] is the level the string
    names: debug, info, warn or error. *)
Theorem LogLevel_of_validated_config :
  forall c,
    config.Struct c = None ->
    snd (zerolog.ParseLevel (config.LogLevel (config.Server c))) = None
    /\ Some (config.Config_LogLevel c)
       = spec.level_named (config.LogLevel (config.Server c))
    /\ zerolog.LevelFieldMarshalFunc (config.Config_LogLevel c)
       = config.LogLevel (config.Server c).
Proof.
  intros c Hs. apply Struct_None in Hs. destruct Hs as (_ & Hl & _).
  unfold config.Config_LogLevel.
  simpl in Hl. destruct Hl as [<- | [<- | [<- | [<- | []]]]];
    vm_compute; auto.
Qed.

Lemma LogLevel_of_validated_config_witness :
  config.Struct sample.warn_cfg = None
  /\ snd (zerolog.ParseLevel "warn") = None
  /\ Some (config.Config_LogLevel sample.warn_cfg) = Some zerolog.WarnLevel
  /\ zerolog.LevelFieldMarshalFunc (config.Config_LogLevel sample.warn_cfg)
     = "warn".
Proof.
  split; [reflexivity|].
  apply (LogLevel_of_validated_config sample.warn_cfg). reflexivity.
Defined.

(** ** The health probes and the handler chain *)

Section Probes.

Context {E : Type} `{GoError E}.
Variable getHealth : health.HealthResult * option E.
Variable logger : zerolog.Logger.

Lemma incr_index_reset r errout :
  gin.incr_index {| gin.ctx := gin.reset r; gin.DefaultErrorWriter := errout |}
  = gin.Returned tt (spec.serving r errout).
Proof. reflexivity. Qed.

(** The recovery middleware never lets a panic of the rest of the chain
    through. *)
Lemma Recovery_returns next s :
  exists s', gin.Recovery next s = gin.Returned tt s'.
Proof.
  unfold gin.Recovery. destruct (next s) as [[] s' | v s']; [eauto|].
  unfold gin.bind, gin.print_recovery.
  destruct (gin.brokenPipe v); simpl; eauto.
Qed.

(** A panic that is not a broken connection, raised before the status line
    is sent, is printed and answered with 500. *)
Lemma Recovery_answers_500 next s v s' :
  next s = gin.Panicked v s' ->
  gin.brokenPipe v = false ->
  gin.written (gin.Writer (gin.ctx s')) = false ->
  exists s'',
    gin.Recovery next s = gin.Returned tt s''
    /\ gin.status (gin.Writer (gin.ctx s'')) = 500
    /\ gin.written (gin.Writer (gin.ctx s'')) = true
    /\ gin.body (gin.Writer (gin.ctx s'')) = gin.body (gin.Writer (gin.ctx s'))
    /\ gin.DefaultErrorWriter s''
       = (gin.DefaultErrorWriter s'
          ++ [{| gin.recovered := v; gin.broken_pipe := false |}])%list.
Proof.
  intros Hnext Hbp Hw. unfold gin.Recovery. rewrite Hnext.
  unfold gin.bind, gin.print_recovery. rewrite Hbp.
  eexists. split; [reflexivity|]. cbn.
  unfold gin.WriteHeader. rewrite Hw. cbn.
  destruct (gin.status (gin.Writer (gin.ctx s')) =? 500) eqn:Hs; cbn;
    [apply Z.eqb_eq in Hs|]; auto.
Qed.


(** What the rest of the chain does under the recovery middleware: the
    wrapped logging handler panics before the route's handler is reached. *)
Lemma logging_middleware_panics h r errout :
  gin.Next_after_first gin.Recovery
    [gin.WrapH (hlog.NewHandler logger None); h] (spec.serving r errout)
  = gin.Panicked spec.nil_dereference
      {| gin.ctx := {| gin.Request_ := r;
                       gin.Writer := gin.Writer (gin.reset r);
                       gin.index := 1;
                       gin.Errors := [] |};
         gin.DefaultErrorWriter := errout |}.
Proof. reflexivity. Qed.

(** X9.  The liveness handler by itself, on the route [InitRoutes]
    registers, answers GET /health/live with 200 and an empty body, without
    consulting [getHealth]. *)
Lemma liveness_handler_alone l errout :
  gin.Engine_ServeHTTP (spec.health_only getHealth) (spec.GET_live l) errout
  = Some (gin.Returned tt
            (spec.answered (spec.GET_live l) 200 None [] 1 errout)).
Proof. reflexivity. Qed.

(** C2, at the failing input.  Through the router that [main] builds, a
    GET /health/live is answered 500 with an empty body: the logging
    middleware calls a nil handler, the recovery middleware prints the
    run-time error and aborts, and the liveness handler is not run. *)
Theorem liveness_through_router :
  forall l errout,
    gin.Engine_ServeHTTP (server.router getHealth logger) (spec.GET_live l)
      errout
    = Some (gin.Returned tt
              (spec.answered (spec.GET_live l) 500 None [] 64
                 (errout ++ [{| gin.recovered := spec.nil_dereference;
                                gin.broken_pipe := false |}])%list)).
Proof. reflexivity. Qed.

(** X10.  Through the router that [main] builds, a GET /health/ready is
    answered 500 with an empty body whatever [getHealth] returns: the
    readiness handler is not reached. *)
Lemma readiness_through_router l errout :
  gin.Engine_ServeHTTP (server.router getHealth logger) (spec.GET_ready l)
    errout
  = Some (gin.Returned tt
            (spec.answered (spec.GET_ready l) 500 None [] 64
               (errout ++ [{| gin.recovered := spec.nil_dereference;
                              gin.broken_pipe := false |}])%list)).
Proof. reflexivity. Qed.



End Probes.


(** ** The life cycle *)

Lemma main_loaded w cfg :
  spec.loaded w cfg ->
  exists loading,
    server.main w
    = ((server.log_all loading
        ++ fst (server.run (server.start_logger (server.version w)) cfg w))%list,
       snd (server.run (server.start_logger (server.version w)) cfg w)).
Proof.
  unfold spec.loaded, server.main.
  destruct (config.LoadConfig _ _ _) as [res fx]. simpl. intros ->.
  exists (config.logged fx). destruct (server.run _ _ _). reflexivity.
Qed.

Lemma loaded_Struct w cfg : spec.loaded w cfg -> config.Struct cfg = None.
Proof.
  unfold spec.loaded. rewrite LoadConfig_fst.
  destruct (config.Parse _ _) as [c [e|]]; [discriminate|].
  destruct (config.Struct c) eqn:Hs; [discriminate|]. congruence.
Qed.

Lemma validated_level c :
  config.Struct c = None -> 0 <= config.Config_LogLevel c <= 3.
Proof.
  intros Hs. apply Struct_None in Hs. destruct Hs as (_ & Hl & _).
  unfold config.Config_LogLevel.
  simpl in Hl. destruct Hl as [<- | [<- | [<- | [<- | []]]]]; vm_compute;
    split; discriminate.
Qed.

(** With a validated level the fatal line is always written. *)
Lemma Fatal_validated version c err msg :
  config.Struct c = None ->
  server.Fatal (zerolog.With_Level (config.Config_LogLevel c)
                  (server.start_logger version)) err msg
  = ([server.Log (spec.fatal_event version err msg)], signal.Exit 1).
Proof.
  intros Hs. apply validated_level in Hs.
  unfold server.Fatal, zerolog.emit, zerolog.should. simpl zerolog.level.
  destruct (Z.leb_spec (config.Config_LogLevel c) zerolog.FatalLevel)
    as [_|Hlt]; [reflexivity|].
  unfold zerolog.FatalLevel in Hlt. lia.
Qed.

Lemma receive_relayed relayed incoming s :
  signal.receive relayed incoming = inl s -> relayed s = true.
Proof.
  induction incoming as [|s0 rest IH]; simpl; [discriminate|].
  destruct (relayed s0) eqn:Hr; [intros [= <-]; assumption|].
  destruct (signal.default_action s0); [discriminate | exact IH].
Qed.

Lemma Notify_INT_TERM s :
  signal.Notify [signal.SIGINT; signal.SIGTERM] s = true
  <-> s = signal.SIGINT \/ s = signal.SIGTERM.
Proof. destruct s; simpl; intuition discriminate. Qed.

Lemma set_modes_app a b :
  spec.set_modes (a ++ b) = (spec.set_modes a ++ spec.set_modes b)%list.
Proof. apply flat_map_app. Qed.

Lemma shutdown_calls_app a b :
  spec.shutdown_calls (a ++ b)
  = (spec.shutdown_calls a ++ spec.shutdown_calls b)%list.
Proof. apply flat_map_app. Qed.

Lemma set_modes_log es : spec.set_modes (server.log_all es) = [].
Proof. induction es as [|e es IH]; [reflexivity | exact IH]. Qed.

Lemma shutdown_calls_log es : spec.shutdown_calls (server.log_all es) = [].
Proof. induction es as [|e es IH]; [reflexivity | exact IH]. Qed.

Lemma set_modes_cons a tr :
  spec.set_modes (a :: tr)
  = (match a with server.SetMode m => [m] | _ => [] end
     ++ spec.set_modes tr)%list.
Proof. reflexivity. Qed.

Lemma shutdown_calls_cons a tr :
  spec.shutdown_calls (a :: tr)
  = (match a with server.Shutdown t => [t] | _ => [] end
     ++ spec.shutdown_calls tr)%list.
Proof. reflexivity. Qed.

Ltac trace_simpl :=
  repeat (rewrite ?set_modes_app, ?shutdown_calls_app, ?set_modes_log,
            ?shutdown_calls_log, ?set_modes_cons, ?shutdown_calls_cons;
          cbn [fst snd app]);
  change (spec.set_modes []) with (@nil server.Mode);
  change (spec.shutdown_calls []) with (@nil Z);
  cbn [app].

Lemma serve_trace logger cfg w :
  spec.set_modes (fst (server.serve logger cfg w)) = []
  /\ spec.shutdown_calls (fst (server.serve logger cfg w)) = [].
Proof.
  unfold server.serve, server.Fatal.
  destruct (server.listen_error w) as [[]|]; trace_simpl; auto.
Qed.

Lemma shutdown_trace logger w :
  spec.set_modes (fst (server.shutdown logger w)) = []
  /\ spec.shutdown_calls (fst (server.shutdown logger w))
     = [30 * server.Second].
Proof.
  unfold server.shutdown, server.Fatal.
  destruct (server.Server_Shutdown _ w), (server.goroutine_logs w);
    trace_simpl; auto.
Qed.

Lemma run_set_modes logger cfg w :
  spec.set_modes (fst (server.run logger cfg w))
  = if config.Config_IsProd cfg then [server.ReleaseMode] else [].
Proof.
  unfold server.run.
  set (lg := zerolog.With_Level _ logger).
  pose proof (serve_trace lg cfg w) as [Hs _].
  pose proof (shutdown_trace lg w) as [Hd _].
  destruct (server.serve lg cfg w) as [served [t|]];
    [|destruct (signal.receive _ _); [destruct (server.shutdown lg w)|]];
    cbn [fst snd] in *; trace_simpl; rewrite ?Hs, ?Hd;
    destruct (config.Config_IsProd cfg); reflexivity.
Qed.

Lemma run_shutdown_calls logger cfg w :
  server.listen_error w = None ->
  spec.shutdown_calls (fst (server.run logger cfg w))
  = match spec.first_signal w with
    | inl _ => [30 * server.Second]
    | inr _ => []
    end.
Proof.
  intros Hl. unfold server.run, spec.first_signal.
  set (lg := zerolog.With_Level _ logger).
  pose proof (serve_trace lg cfg w) as [_ Hs].
  pose proof (shutdown_trace lg w) as [_ Hd].
  assert (Hnone : snd (server.serve lg cfg w) = None)
    by (unfold server.serve; rewrite Hl; reflexivity).
  destruct (server.serve lg cfg w) as [served [t|]]; [discriminate|].
  destruct (signal.receive _ _); [destruct (server.shutdown lg w)|];
    cbn [fst snd] in *; trace_simpl; rewrite ?Hs, ?Hd;
    destruct (config.Config_IsProd cfg); reflexivity.
Qed.

Lemma run_exit logger cfg w s :
  server.listen_error w = None ->
  spec.first_signal w = inl s ->
  snd (server.run logger cfg w)
  = snd (server.shutdown
           (zerolog.With_Level (config.Config_LogLevel cfg) logger) w)
  /\ exists before,
       fst (server.run logger cfg w)
       = (before
          ++ fst (server.shutdown
                    (zerolog.With_Level (config.Config_LogLevel cfg) logger)
                    w))%list.
Proof.
  intros Hl Hs. unfold server.run. unfold spec.first_signal in Hs. rewrite Hs.
  unfold server.serve. rewrite Hl.
  destruct (server.shutdown _ w) as [acts t]. cbn [fst snd].
  split; [reflexivity|]. eexists. rewrite !app_assoc. reflexivity.
Qed.

Lemma main_trace w cfg :
  spec.loaded w cfg ->
  spec.set_modes (fst (server.main w))
  = spec.set_modes
      (fst (server.run (server.start_logger (server.version w)) cfg w))
  /\ spec.shutdown_calls (fst (server.main w))
     = spec.shutdown_calls
         (fst (server.run (server.start_logger (server.version w)) cfg w))
  /\ snd (server.main w)
     = snd (server.run (server.start_logger (server.version w)) cfg w).
Proof.
  intros Hload. destruct (main_loaded w cfg Hload) as [loading ->].
  cbn [fst snd]. trace_simpl. auto.
Qed.

(** C1, as the code has it.  When the configuration is loaded, the server
    listens, SIGINT or SIGTERM arrives, and the connections are not all idle
    within the 30 seconds given to [Shutdown], the deadline error is logged
    at fatal level with the message "failed to shutdown server" as the last
    line and the process exits with status 1. *)
Theorem shutdown_timeout_is_fatal :
  forall w cfg s,
    spec.loaded w cfg ->
    server.listen_error w = None ->
    spec.first_signal w = inl s ->
    spec.deadline_expires w ->
    snd (server.main w) = signal.Exit 1
    /\ exists before,
         fst (server.main w)
         = (before
            ++ [server.Log (spec.fatal_event (server.version w)
                              context_DeadlineExceeded
                              "failed to shutdown server")])%list.
Proof.
  intros w cfg s Hload Hlisten Hsig Hexp.
  destruct (main_loaded w cfg Hload) as [loading ->]. cbn [fst snd].
  destruct (run_exit (server.start_logger (server.version w)) cfg w s
              Hlisten Hsig) as [-> [before ->]].
  assert (Hsd : server.Server_Shutdown (30 * server.Second) w
                = Some context_DeadlineExceeded).
  { unfold server.Server_Shutdown. unfold spec.deadline_expires in Hexp.
    destruct (server.drained_after w) as [t|]; [|reflexivity].
    destruct (Z.ltb_spec t (30 * server.Second)); [lia | reflexivity]. }
  unfold server.shutdown. rewrite Hsd.
  rewrite (Fatal_validated _ cfg _ _ (loaded_Struct w cfg Hload)).
  cbn [fst snd]. split; [reflexivity|].
  eexists. rewrite !app_assoc. reflexivity.
Qed.

Lemma shutdown_timeout_is_fatal_witness :
  snd (server.main sample.stuck_world) = signal.Exit 1
  /\ exists before,
       fst (server.main sample.stuck_world)
       = (before
          ++ [server.Log (spec.fatal_event "1.0.0" context_DeadlineExceeded
                            "failed to shutdown server")])%list.
Proof.
  apply (shutdown_timeout_is_fatal sample.stuck_world sample.cfg
           signal.SIGTERM).
  - reflexivity.
  - reflexivity.
  - reflexivity.
  - exact I.
Defined.

(** C1 as stated fails: SIGTERM arrives while a request that never
    completes is in flight; the process ends with status 1, not 0, and
    writes no line at error level. *)
Lemma shutdown_timeout_exit_status :
  spec.deadline_expires sample.stuck_world
  /\ spec.first_signal sample.stuck_world = inl signal.SIGTERM
  /\ snd (server.main sample.stuck_world) = signal.Exit 1
  /\ snd (server.main sample.stuck_world) <> signal.Exit 0
  /\ forall e, In (server.Log e) (fst (server.main sample.stuck_world)) ->
               zerolog.ev_level e <> zerolog.ErrorLevel.
Proof.
  split; [exact I|]. split; [reflexivity|]. split; [reflexivity|].
  split; [discriminate|].
  intros e. vm_compute.
  intros H; repeat destruct H as [H|H]; try discriminate H;
    try (injection H as <-; discriminate); contradiction.
Qed.

(** C7.  With the configuration loaded and the server listening: the
    signals relayed to [main] are exactly SIGINT and SIGTERM; [Shutdown] is
    called, once and with a 30 second deadline, when such a signal is
    received, and is not called when the process ends or waits without one,
    so a process that gets a single signal calls it exactly for SIGINT and
    SIGTERM; and when [Shutdown] then returns no error the process exits
    with status 0. *)
Theorem signals_trigger_shutdown :
  forall w cfg,
    spec.loaded w cfg ->
    server.listen_error w = None ->
    (forall s, signal.Notify [signal.SIGINT; signal.SIGTERM] s = true
               <-> s = signal.SIGINT \/ s = signal.SIGTERM)
    /\ (forall s, spec.first_signal w = inl s ->
                  (s = signal.SIGINT \/ s = signal.SIGTERM)
                  /\ spec.shutdown_calls (fst (server.main w))
                     = [30 * server.Second])
    /\ (forall t, spec.first_signal w = inr t ->
                  spec.shutdown_calls (fst (server.main w)) = []
                  /\ snd (server.main w) = t)
    /\ (forall s, spec.shutdown_calls
                    (fst (server.main (spec.with_incoming [s] w)))
                  = [30 * server.Second]
                  <-> s = signal.SIGINT \/ s = signal.SIGTERM)
    /\ (forall s, spec.first_signal w = inl s ->
                  server.Server_Shutdown (30 * server.Second) w = None ->
                  snd (server.main w) = signal.Exit 0).
Proof.
  intros w cfg Hload Hlisten.
  destruct (main_trace w cfg Hload) as (_ & Hcalls & Hexit).
  pose proof (run_shutdown_calls (server.start_logger (server.version w))
                cfg w Hlisten) as Hrun.
  split; [exact Notify_INT_TERM|].
  split; [|split; [|split]].
  - intros s Hs. split.
    + apply Notify_INT_TERM. eapply receive_relayed. exact Hs.
    + rewrite Hcalls, Hrun, Hs. reflexivity.
  - intros t Ht. split.
    + rewrite Hcalls, Hrun, Ht. reflexivity.
    + rewrite Hexit. unfold server.run, server.serve. rewrite Hlisten.
      unfold spec.first_signal in Ht. rewrite Ht. reflexivity.
  - intros s.
    assert (Hload' : spec.loaded (spec.with_incoming [s] w) cfg) by exact Hload.
    destruct (main_trace _ cfg Hload') as (_ & -> & _).
    rewrite (run_shutdown_calls _ cfg (spec.with_incoming [s] w) Hlisten).
    destruct s; vm_compute; intuition discriminate.
  - intros s Hs Hsd. rewrite Hexit.
    destruct (run_exit (server.start_logger (server.version w)) cfg w s
                Hlisten Hs) as [-> _].
    unfold server.shutdown. rewrite Hsd. reflexivity.
Qed.

Lemma signals_trigger_shutdown_witness :
  spec.shutdown_calls (fst (server.main sample.calm_world))
  = [30 * server.Second]
  /\ snd (server.main sample.calm_world) = signal.Exit 0.
Proof.
  pose proof (signals_trigger_shutdown sample.calm_world sample.cfg
                eq_refl eq_refl) as (_ & Hcall & _ & _ & Hexit).
  split.
  - exact (proj2 (Hcall signal.SIGINT eq_refl)).
  - exact (Hexit signal.SIGINT eq_refl eq_refl).
Defined.

(** C10.  [IsProd()] is true exactly when the environment tag is the string
    "prod"; it is false for local, dev and staging; and [main] sets gin's
    release mode exactly when the loaded configuration has the tag "prod",
    setting no mode otherwise. *)
Theorem IsProd_iff_prod :
  (forall c, config.Config_IsProd c = true
             <-> config.Env (config.Server c) = "prod")
  /\ (forall c, config.Config_IsProd (spec.with_env "local" c) = false
                /\ config.Config_IsProd (spec.with_env "dev" c) = false
                /\ config.Config_IsProd (spec.with_env "staging" c) = false
                /\ config.Config_IsProd (spec.with_env "prod" c) = true)
  /\ (forall w cfg,
        spec.loaded w cfg ->
        spec.set_modes (fst (server.main w))
        = if String.eqb (config.Env (config.Server cfg)) "prod"
          then [server.ReleaseMode] else []).
Proof.
  split; [|split].
  - intros c. unfold config.Config_IsProd. apply String.eqb_eq.
  - intros c. repeat split; reflexivity.
  - intros w cfg Hload.
    destruct (main_trace w cfg Hload) as (-> & _ & _).
    apply run_set_modes.
Qed.

Lemma IsProd_iff_prod_witness :
  spec.set_modes (fst (server.main sample.calm_world)) = [].
Proof.
  exact (proj2 (proj2 IsProd_iff_prod) sample.calm_world sample.cfg eq_refl).
Defined.

(** * Further properties *)

(** ** The configuration loader *)

Lemma log_level_read_acceptable envs :
  observe.level_acceptable envs <-> In (observe.log_level_read envs) spec.log_levels.
Proof.
  unfold observe.level_acceptable, observe.log_level_read.
  destruct (envs !! spec.LOG_LEVEL) as [l|]; [|simpl; tauto].
  destruct (String.eqb_spec l "") as [-> | Hne]; [simpl; tauto|].
  split.
  - intros [H | [H | (l0 & [= <-] & Hin)]]; congruence.
  - intros Hin. right; right. eauto.
Qed.

Lemma LoadConfig_read A logger dotenv environ c :
  fst (@config.LoadConfig A logger dotenv environ) = (Some c, None) ->
  c = observe.config_read (fst (godotenv.Load dotenv environ))
        (config.Port (config.Server c)).
Proof.
  rewrite LoadConfig_fst, Parse_zero. cbv zeta.
  set (envs := fst (godotenv.Load dotenv environ)).
  fold (observe.log_level_read envs). fold (observe.config_read envs).
  destruct (envs !! spec.PORT) as [v|].
  - destruct (String.eqb v "").
    + destruct (config.Struct _); [discriminate|]. intros [= <-]. reflexivity.
    + destruct (strconv.ParseInt v 32) as [i [e|]]; [discriminate|].
      destruct (config.Struct _); [discriminate|]. intros [= <-]. reflexivity.
  - destruct (config.Struct _); [discriminate|]. intros [= <-]. reflexivity.
Qed.

Lemma LoadConfig_valid A logger dotenv environ p :
  let envs := fst (godotenv.Load dotenv environ) in
  spec.port_valid envs p ->
  observe.level_acceptable envs ->
  In (default "" (envs !! spec.ENV)) spec.env_tags ->
  fst (@config.LoadConfig A logger dotenv environ)
  = (Some (observe.config_read envs p), None).
Proof.
  intros envs (v & Hv & Hd & Hr) Hl He.
  rewrite LoadConfig_fst, Parse_zero. fold envs. cbv zeta.
  fold (observe.log_level_read envs). fold (observe.config_read envs).
  rewrite Hv.
  destruct (String.eqb_spec v "") as [Heq | _];
    [exfalso; revert Heq; eapply decimal_value_nonempty; eassumption|].
  rewrite (ParseInt32_port v p Hd Hr).
  assert (Hnone : config.Struct (observe.config_read envs p) = None).
  { apply Struct_None. simpl. split; [assumption|]. split; [|assumption].
    apply log_level_read_acceptable. assumption. }
  rewrite Hnone. reflexivity.
Qed.

(** X1.  [LoadConfig] returns a configuration exactly when, in the
    environment it reads, the port is an integer in [1,65535], the log
    level is unset, empty or one of debug, info, warn, error, and the
    environment tag is one of local, dev, staging, prod; the configuration
    then holds the address (empty when unset), that port, the log level
    (info when unset or empty) and that tag. *)
Theorem LoadConfig_succeeds_iff :
  forall (A : Type) logger dotenv environ c,
    let envs := fst (godotenv.Load dotenv environ) in
    fst (@config.LoadConfig A logger dotenv environ) = (Some c, None)
    <-> exists p tag,
          spec.port_valid envs p
          /\ observe.level_acceptable envs
          /\ envs !! spec.ENV = Some tag /\ In tag spec.env_tags
          /\ c = {| config.Server :=
                      {| config.Address := default "" (envs !! spec.ADDRESS);
                         config.Port := p;
                         config.LogLevel := observe.log_level_read envs;
                         config.Env := tag |} |}.
Proof.
  intros A logger dotenv environ c envs. split.
  - intros Hc. pose proof (LoadConfig_read _ _ _ _ _ Hc) as Hread.
    apply LoadConfig_ok_inv in Hc. fold envs in Hc, Hread. cbv zeta in Hc.
    destruct Hc as (Hp & Hl & (tag & Ht & Hin)).
    exists (config.Port (config.Server c)), tag.
    split; [assumption|]. split; [exact Hl|]. split; [assumption|].
    split; [assumption|].
    rewrite Hread at 1. unfold observe.config_read. rewrite Ht. reflexivity.
  - intros (p & tag & Hp & Hl & Ht & Hin & ->).
    rewrite (LoadConfig_valid A logger dotenv environ p Hp Hl).
    + unfold observe.config_read. fold envs. rewrite Ht. reflexivity.
    + fold envs. rewrite Ht. assumption.
Qed.

Lemma Parse_agree envs1 envs2 :
  envs1 !! spec.ADDRESS = envs2 !! spec.ADDRESS ->
  envs1 !! spec.PORT = envs2 !! spec.PORT ->
  envs1 !! spec.LOG_LEVEL = envs2 !! spec.LOG_LEVEL ->
  envs1 !! spec.ENV = envs2 !! spec.ENV ->
  config.Parse envs1 config.zero = config.Parse envs2 config.zero.
Proof.
  intros Ha Hp Hl He. rewrite !Parse_zero. cbv zeta.
  rewrite Ha, Hp, Hl, He. reflexivity.
Qed.

(** X2.  When the process environment sets all four variables, the result
    of [LoadConfig] does not depend on the .env file: whether it is
    missing, broken, or assigns other values. *)
Theorem LoadConfig_environment_wins :
  forall (A : Type) logger dotenv dotenv' environ,
    observe.set_in environ spec.ADDRESS -> observe.set_in environ spec.PORT ->
    observe.set_in environ spec.LOG_LEVEL -> observe.set_in environ spec.ENV ->
    fst (@config.LoadConfig A logger dotenv environ)
    = fst (@config.LoadConfig A logger dotenv' environ).
Proof.
  intros A logger dotenv dotenv' environ Ha Hp Hl He.
  assert (Hkeep : forall d k, observe.set_in environ k ->
            fst (godotenv.Load d environ) !! k = environ !! k).
  { intros [vars|err] k [v Hv]; simpl; [|reflexivity].
    rewrite Hv. apply lookup_union_Some_l. assumption. }
  rewrite !LoadConfig_fst.
  rewrite (Parse_agree (fst (godotenv.Load dotenv environ))
             (fst (godotenv.Load dotenv' environ)));
    [reflexivity | rewrite !Hkeep by assumption; reflexivity ..].
Qed.

Lemma LoadConfig_environment_wins_witness :
  fst (@config.LoadConfig unit zerolog.New inputs.hostile_dotenv inputs.full_environ)
  = fst (@config.LoadConfig unit zerolog.New sample.no_dotenv inputs.full_environ).
Proof.
  apply (LoadConfig_environment_wins unit zerolog.New inputs.hostile_dotenv
           sample.no_dotenv inputs.full_environ);
    eexists; reflexivity.
Defined.

(** X4.  A port variable that holds a non-empty text which is no integer,
    or an integer that does not fit 32 bits, makes [LoadConfig] return the
    parse error of the env package on the field Port, and nothing else:
    the validator is not run, whatever the other variables hold. *)
Theorem LoadConfig_unparsable_port :
  forall (A : Type) logger dotenv environ v,
    let envs := fst (godotenv.Load dotenv environ) in
    envs !! spec.PORT = Some v ->
    v <> "" ->
    (forall p, spec.decimal_value v = Some p -> spec.in_int32 p = false) ->
    exists kind,
      fst (@config.LoadConfig A logger dotenv environ)
      = (None, Some (env_AggregateError [env.ParseError "Port" "int" kind])).
Proof.
  intros A logger dotenv environ v envs Hv Hne Hbad.
  rewrite LoadConfig_fst, Parse_zero. fold envs. cbv zeta. rewrite Hv.
  destruct (String.eqb_spec v ""); [contradiction|].
  pose proof (ParseInt32_spec v) as Hs.
  destruct (spec.decimal_value v) as [p|].
  - rewrite (Hbad p eq_refl) in Hs. destruct Hs as [x ->]. eauto.
  - destruct Hs as (x & e & ->). eauto.
Qed.

Lemma LoadConfig_unparsable_port_witness :
  exists kind,
    fst (@config.LoadConfig unit zerolog.New sample.no_dotenv inputs.bad_port_environ)
    = (None, Some (env_AggregateError [env.ParseError "Port" "int" kind])).
Proof.
  apply (LoadConfig_unparsable_port unit zerolog.New sample.no_dotenv
           inputs.bad_port_environ "80a").
  - reflexivity.
  - discriminate.
  - intros p Hp. vm_compute in Hp. discriminate Hp.
Defined.

Lemma validate_Port_defect ns p :
  validator.validate_int ns config.Port_tags p = observe.field_error ns (observe.port_defect p).
Proof.
  unfold validator.validate_int, config.Port_tags, observe.port_defect. simpl.
  destruct (Z.eqb_spec p 0); simpl; [reflexivity|].
  destruct (Z.ltb_spec 0 p), (Z.ltb_spec p 0); simpl; try lia; try reflexivity.
  destruct (Z.ltb_spec p 65536), (Z.ltb_spec 65535 p); simpl; try lia;
    reflexivity.
Qed.

Lemma validate_enum_defect ns vals v :
  validator.validate_string ns
    [validator.required_string; validator.oneof vals] v
  = observe.field_error ns (observe.enum_defect vals v).
Proof.
  unfold validator.validate_string, observe.enum_defect. simpl.
  destruct (String.eqb v ""); simpl; [reflexivity|].
  destruct (existsb (String.eqb v) vals); reflexivity.
Qed.

(** X6.  The validation of [LoadConfig] reports every defective field at
    once, in the order Port, LogLevel, Env, each with the first tag it
    fails: required for a zero port or an empty string, gt for a negative
    port, lt for a port above 65535, oneof for a string outside its
    enumeration; it returns no error exactly when there is no defect. *)
Theorem Struct_reports_every_invalid_field :
  forall c,
    config.Struct c
    = match observe.expected_errors c with
      | [] => None
      | errs => Some (validator_ValidationErrors errs)
      end.
Proof.
  intros c. unfold config.Struct, observe.expected_errors.
  rewrite validate_Port_defect.
  unfold config.LogLevel_tags, config.Env_tags.
  rewrite !validate_enum_defect. reflexivity.
Qed.

(** X5.  A port variable that is unset or empty passes [env.Parse] (the
    [required:"true"] tag is not one the env package reads) and is
    reported by the validator: [LoadConfig] returns validation errors that
    start with the required tag on Config.Server.Port. *)
Theorem LoadConfig_missing_port :
  forall (A : Type) logger dotenv environ,
    let envs := fst (godotenv.Load dotenv environ) in
    envs !! spec.PORT = None \/ envs !! spec.PORT = Some "" ->
    exists rest,
      fst (@config.LoadConfig A logger dotenv environ)
      = (None,
         Some (validator_ValidationErrors
                 ({| validator.Namespace := "Config.Server.Port";
                     validator.Tag := "required" |} :: rest))).
Proof.
  intros A logger dotenv environ envs Hp.
  rewrite LoadConfig_fst, Parse_zero. fold envs. cbv zeta.
  assert (Hzero : forall c, config.Port (config.Server c) = 0 ->
            exists rest, config.Struct c
              = Some (validator_ValidationErrors
                        ({| validator.Namespace := "Config.Server.Port";
                            validator.Tag := "required" |} :: rest))).
  { intros c Hc. unfold config.Struct. rewrite validate_Port_defect, Hc.
    simpl. eauto. }
  destruct Hp as [Hp | Hp]; rewrite Hp;
    [|change (String.eqb "" "") with true]; cbv iota;
    match goal with
    | |- context [config.Struct ?c] =>
        destruct (Hzero c eq_refl) as [rest ->]
    end; eauto.
Qed.

Lemma LoadConfig_missing_port_witness :
  exists rest,
    fst (@config.LoadConfig unit zerolog.New sample.no_dotenv ∅)
    = (None,
       Some (validator_ValidationErrors
               ({| validator.Namespace := "Config.Server.Port";
                   validator.Tag := "required" |} :: rest))).
Proof.
  apply (LoadConfig_missing_port unit zerolog.New sample.no_dotenv ∅).
  left. reflexivity.
Defined.

(** ** Level names *)

Lemma EqualFold_step s tc t' :
  strings.EqualFold s (String tc t')
  = match observe.fold_step s with
    | Some (x, r) => (x =? strings.lower (strconv.byte_of tc))
                     && strings.EqualFold r t'
    | None => false
    end.
Proof.
  destruct s as [|c s']; [reflexivity|].
  unfold observe.fold_step. cbn [strings.EqualFold].
  destruct (strconv.byte_of c <? 128); [reflexivity|].
  destruct s' as [|c2 [|c3 s3]]; [reflexivity | |].
  - destruct (_ && _); [rewrite Z.eqb_sym|]; reflexivity.
  - destruct ((strconv.byte_of c =? 226) && _ && _);
      [rewrite Z.eqb_sym; reflexivity|].
    destruct (_ && _); [rewrite Z.eqb_sym|]; reflexivity.
Qed.

Lemma EqualFold_unique t1 :
  forall s t2,
    strings.EqualFold s t1 = true -> strings.EqualFold s t2 = true ->
    observe.folded t1 = observe.folded t2.
Proof.
  induction t1 as [|c1 t1 IH]; intros s t2.
  - destruct s; [|discriminate]. destruct t2; [reflexivity | discriminate].
  - rewrite EqualFold_step. destruct t2 as [|c2 t2].
    + destruct s; [|discriminate]. discriminate.
    + rewrite EqualFold_step.
      destruct (observe.fold_step s) as [[x r]|]; [|discriminate].
      intros H1 H2. apply andb_true_iff in H1 as [Hx1 Hr1].
      apply andb_true_iff in H2 as [Hx2 Hr2].
      apply Z.eqb_eq in Hx1, Hx2.
      unfold observe.folded. cbn. f_equal; [congruence|].
      exact (IH r t2 Hr1 Hr2).
Qed.

Lemma ParseLevel_named lvl s :
  In lvl zerolog.named_levels ->
  strings.EqualFold s (zerolog.LevelFieldMarshalFunc lvl) = true ->
  zerolog.ParseLevel s = (lvl, None).
Proof.
  intros Hin Hs. unfold zerolog.ParseLevel.
  assert (Hfind : find (fun l => strings.EqualFold s (zerolog.LevelFieldMarshalFunc l))
                    zerolog.named_levels = Some lvl).
  { unfold zerolog.named_levels in *. cbn [find].
    repeat match goal with
    | |- (if strings.EqualFold s ?n then _ else _) = _ =>
        destruct (strings.EqualFold s n) eqn:?
    end;
    repeat match goal with
    | H : In _ (_ :: _) |- _ => destruct H as [H | H]
    | H : In _ [] |- _ => destruct H
    end; subst;
    try reflexivity;
    try congruence;
    match goal with
    | H1 : strings.EqualFold s ?a = true, H2 : strings.EqualFold s ?b = true |- _ =>
        let H := fresh in
        pose proof (EqualFold_unique _ _ _ H1 H2) as H;
        vm_compute in H; discriminate H
    end. }
  rewrite Hfind. reflexivity.
Qed.

(** X7.  [LogLevel()] reads the names of the zerolog levels in any letter
    case: when the log level of a configuration equals the name of a level
    under [strings.EqualFold], that level is returned (trace, fatal, panic
    and disabled included, which the validation of [LoadConfig] would
    refuse). *)
Theorem LogLevel_ignores_case :
  forall c lvl,
    In lvl zerolog.named_levels ->
    strings.EqualFold (config.LogLevel (config.Server c))
      (zerolog.LevelFieldMarshalFunc lvl) = true ->
    config.Config_LogLevel c = lvl.
Proof.
  intros c lvl Hin Hs. unfold config.Config_LogLevel.
  rewrite (ParseLevel_named lvl _ Hin Hs). reflexivity.
Qed.

Lemma LogLevel_ignores_case_witness :
  config.Config_LogLevel inputs.shouting_cfg = zerolog.FatalLevel.
Proof.
  apply (LogLevel_ignores_case inputs.shouting_cfg zerolog.FatalLevel).
  - simpl. auto 10.
  - reflexivity.
Defined.

(** ** Routes *)

Section MoreProbes.

Context {E : Type} `{GoError E}.
Variable getHealth : health.HealthResult * option E.
Variable logger : zerolog.Logger.

(** X8.  The router built by [main] has exactly two routes, both for GET:
    /health/ready and /health/live, each running the recovery middleware,
    the wrapped logging handler and then its probe handler. *)
Theorem router_serves_two_routes :
  forall r hs,
    gin.route (server.router getHealth logger) r = Some hs
    <-> gin.Method r = "GET"
        /\ ((gin.Path r = "/health/ready"
             /\ hs = [gin.Recovery; gin.WrapH (hlog.NewHandler logger None);
                      health.handleReadinessProbe getHealth])
            \/ (gin.Path r = "/health/live"
                /\ hs = [gin.Recovery; gin.WrapH (hlog.NewHandler logger None);
                         health.handleLivenessProbe])).
Proof.
  intros r hs. unfold gin.route.
  change (gin.trees (server.router getHealth logger))
    with [("GET", "/health/ready",
           [gin.Recovery; gin.WrapH (hlog.NewHandler logger None);
            health.handleReadinessProbe getHealth]);
          ("GET", "/health/live",
           [gin.Recovery; gin.WrapH (hlog.NewHandler logger None);
            health.handleLivenessProbe])].
  cbn [find fst snd].
  destruct (String.eqb_spec "GET" (gin.Method r)) as [Hm | Hm];
    cbn [andb].
  - destruct (String.eqb_spec "/health/ready" (gin.Path r)) as [Hp | Hp].
    + split.
      * intros [= Heq]. subst hs. auto.
      * intros (_ & [(_ & ->) | (Hl & _)]); [reflexivity | congruence].
    + destruct (String.eqb_spec "/health/live" (gin.Path r)) as [Hl | Hl].
      * split.
        -- intros [= Heq]. subst hs. auto.
        -- intros (_ & [(Hr & _) | (_ & ->)]); [congruence | reflexivity].
      * split; [discriminate|].
        intros (_ & [(Hr & _) | (Hr & _)]); congruence.
  - split; [discriminate|]. intros (Hg & _). congruence.
Qed.


End MoreProbes.


(** ** Runs of [main] *)

Lemma LoadConfig_logged w :
  server.log_all
    (config.logged
       (snd (@config.LoadConfig config.Config
               (server.start_logger (server.version w))
               (server.dotenv w) (server.environ w))))
  = observe.loading_lines w.
Proof.
  unfold config.LoadConfig, observe.loading_lines.
  destruct (server.dotenv w) as [vars|err]; simpl;
    destruct (config.Parse _ config.zero) as [c [e|]]; try reflexivity;
    destruct (config.Struct c); reflexivity.
Qed.

Lemma main_unfold w :
  server.main w
  = match fst (@config.LoadConfig config.Config
                 (server.start_logger (server.version w))
                 (server.dotenv w) (server.environ w)) with
    | (_, Some err) =>
        ((observe.loading_lines w
          ++ [server.Log (spec.fatal_event (server.version w) err
                            "failed to load config")])%list,
         signal.Exit 1)
    | (None, None) => (observe.loading_lines w, signal.Exit 2)
    | (Some cfg, None) =>
        ((observe.loading_lines w
          ++ fst (server.run (server.start_logger (server.version w)) cfg w))%list,
         snd (server.run (server.start_logger (server.version w)) cfg w))
    end.
Proof.
  rewrite <- LoadConfig_logged. unfold server.main.
  destruct (config.LoadConfig _ _ _) as [[[c|] [e|]] fx]; cbn [fst snd];
    try reflexivity.
  destruct (server.run _ c w). reflexivity.
Qed.

(** X12.  When [LoadConfig] returns an error, [main] writes that error at
    fatal level with the message "failed to load config" (after the .env
    warning, if any) and exits with status 1; it sets no mode, does not
    listen and does not shut down. *)
Theorem main_config_failure :
  forall w err,
    fst (@config.LoadConfig config.Config
           (server.start_logger (server.version w))
           (server.dotenv w) (server.environ w)) = (None, Some err) ->
    server.main w
    = ((observe.loading_lines w
        ++ [server.Log (spec.fatal_event (server.version w) err
                          "failed to load config")])%list,
       signal.Exit 1).
Proof. intros w err Hload. rewrite main_unfold, Hload. reflexivity. Qed.

Lemma main_config_failure_witness :
  exists err,
    server.main inputs.unconfigured_world
    = ((observe.loading_lines inputs.unconfigured_world
        ++ [server.Log (spec.fatal_event "1.0.0" err "failed to load config")])%list,
       signal.Exit 1).
Proof.
  eexists.
  apply (main_config_failure inputs.unconfigured_world). reflexivity.
Defined.

(** X13.  When [ListenAndServe] fails with an error other than
    [http.ErrServerClosed], the process writes that error at fatal level
    with the message "failed to start server" as its last line, exits with
    status 1, and [Shutdown] is not called. *)
Theorem main_listen_failure :
  forall w cfg err,
    spec.loaded w cfg ->
    server.listen_error w = Some err ->
    err <> http_ErrServerClosed ->
    snd (server.main w) = signal.Exit 1
    /\ spec.shutdown_calls (fst (server.main w)) = []
    /\ exists before,
         fst (server.main w)
         = (before
            ++ [server.Log (spec.fatal_event (server.version w) err
                              "failed to start server")])%list.
Proof.
  intros w cfg err Hload Hl Hne.
  destruct (main_loaded w cfg Hload) as [loading ->]. cbn [fst snd].
  unfold server.run, server.serve. rewrite Hl.
  rewrite (Fatal_validated _ cfg _ _ (loaded_Struct w cfg Hload)).
  destruct err; try contradiction; cbn [fst snd];
    (split; [reflexivity|]); (split; [trace_simpl; destruct (config.Config_IsProd cfg); reflexivity|]);
    eexists; rewrite !app_assoc; reflexivity.
Qed.

Lemma main_listen_failure_witness :
  snd (server.main inputs.busy_world) = signal.Exit 1
  /\ spec.shutdown_calls (fst (server.main inputs.busy_world)) = []
  /\ exists before,
       fst (server.main inputs.busy_world)
       = (before
          ++ [server.Log (spec.fatal_event "1.0.0" inputs.port_taken
                            "failed to start server")])%list.
Proof.
  apply (main_listen_failure inputs.busy_world sample.cfg inputs.port_taken).
  - reflexivity.
  - reflexivity.
  - discriminate.
Defined.

Lemma In_log_emit {A} (e : zerolog.Event A) l lvl err f msg :
  In e (zerolog.emit l lvl err f msg) ->
  zerolog.level l <= lvl /\ zerolog.ev_level e = lvl
  /\ zerolog.ev_context e = zerolog.context l.
Proof.
  unfold zerolog.emit, zerolog.should.
  destruct (Z.leb_spec (zerolog.level l) lvl); [|intros []].
  intros [<- | []]. auto.
Qed.

Lemma In_Log_log_all e es : In (server.Log e) (server.log_all es) -> In e es.
Proof.
  unfold server.log_all. rewrite in_map_iff. intros (e' & [= ->] & Hin).
  exact Hin.
Qed.

(** Every action of [main] after the configuration is loaded: a line
    written through the levelled logger, the release mode, the listen call
    with the configured address and port, or the shutdown call. *)
Lemma run_actions logger cfg w a :
  In a (fst (server.run logger cfg w)) ->
  (exists e lvl err f msg,
      a = server.Log e
      /\ In e (zerolog.emit
                 (zerolog.With_Level (config.Config_LogLevel cfg) logger)
                 lvl err f msg))
  \/ a = server.SetMode server.ReleaseMode
  \/ a = server.ListenAndServe (config.Address (config.Server cfg))
           (config.Port (config.Server cfg))
  \/ a = server.Shutdown (30 * server.Second).
Proof.
  assert (Hlog : forall lvl err f msg,
            In a (server.log_all
                    (zerolog.emit
                       (zerolog.With_Level (config.Config_LogLevel cfg) logger)
                       lvl err f msg)) ->
            exists e lvl err f msg,
              a = server.Log e
              /\ In e (zerolog.emit
                         (zerolog.With_Level (config.Config_LogLevel cfg) logger)
                         lvl err f msg)).
  { intros lvl err f msg Hin. unfold server.log_all in Hin.
    apply in_map_iff in Hin as (e & <- & Hin). eauto 10. }
  unfold server.run, server.serve, server.shutdown, server.Fatal.
  destruct (server.listen_error w) as [[]|];
    destruct (signal.receive (signal.Notify [signal.SIGINT; signal.SIGTERM])
                (server.incoming w));
    destruct (server.Server_Shutdown (30 * server.Second) w);
    destruct (server.goroutine_logs w);
    destruct (config.Config_IsProd cfg);
    cbn [fst snd]; rewrite ?in_app_iff; cbn [In];
    intros Hin; decompose [or] Hin; clear Hin;
    try contradiction; subst; eauto 10;
    try (left; eapply Hlog; eassumption).
Qed.

Lemma main_actions w a :
  In a (fst (server.main w)) ->
  (exists err, a = server.Log (observe.dotenv_warning (server.version w) err))
  \/ (exists err, a = server.Log (spec.fatal_event (server.version w) err
                                    "failed to load config"))
  \/ (exists cfg, spec.loaded w cfg
                  /\ In a (fst (server.run
                                  (server.start_logger (server.version w))
                                  cfg w))).
Proof.
  rewrite main_unfold.
  assert (Hloading : In a (observe.loading_lines w) ->
            exists err, a = server.Log (observe.dotenv_warning (server.version w) err)).
  { unfold observe.loading_lines. destruct (server.dotenv w); [intros []|].
    intros [<- | []]. eauto. }
  destruct (fst (config.LoadConfig _ _ _)) as [[cfg|] [err|]] eqn:Hload;
    cbn [fst snd]; rewrite ?in_app_iff; cbn [In];
    intros Hin; decompose [or] Hin; clear Hin; try contradiction; subst;
    eauto.
  destruct (LoadConfig_cases config.Config
              (server.start_logger (server.version w))
              (server.dotenv w) (server.environ w)) as [[c Hc] | [e He]];
    congruence.
Qed.

(** X18.  Every line [main] writes through the logger carries the version
    of the build as its only context field. *)
Theorem main_lines_carry_version :
  forall w e,
    In (server.Log e) (fst (server.main w)) ->
    zerolog.ev_context e = [("version", server.version w)].
Proof.
  intros w e Hin. apply main_actions in Hin.
  destruct Hin as [[err [= ->]] | [[err [= ->]] | (cfg & _ & Hin)]];
    [reflexivity | reflexivity |].
  apply run_actions in Hin.
  destruct Hin as [(e' & lvl & err & f & msg & [= <-] & Hin) | [H | [H | H]]];
    try discriminate H.
  apply In_log_emit in Hin. destruct Hin as (_ & _ & ->). reflexivity.
Qed.

Lemma main_lines_carry_version_witness :
  zerolog.ev_context
    (spec.fatal_event "1.0.0" context_DeadlineExceeded
       "failed to shutdown server")
  = [("version", server.version sample.stuck_world)].
Proof.
  apply (main_lines_carry_version sample.stuck_world).
  vm_compute. auto 10.
Defined.

(** X17.  Once the configuration is loaded, every line [main] writes has a
    level at or above the configured log level; the only line that can be
    below it is the .env warning, written before the level is set. *)
Theorem main_lines_respect_level :
  forall w cfg e,
    spec.loaded w cfg ->
    In (server.Log e) (fst (server.main w)) ->
    config.Config_LogLevel cfg <= zerolog.ev_level e
    \/ exists err, e = observe.dotenv_warning (server.version w) err.
Proof.
  intros w cfg e Hload Hin. apply main_actions in Hin.
  destruct Hin as [[err [= ->]] | [[err [= ->]] | (cfg' & Hload' & Hin)]].
  - right. eauto.
  - left. pose proof (validated_level cfg (loaded_Struct w cfg Hload)).
    simpl. unfold zerolog.FatalLevel. lia.
  - assert (cfg' = cfg) by (unfold spec.loaded in *; congruence). subst cfg'.
    apply run_actions in Hin.
    destruct Hin as [(e' & lvl & err & f & msg & [= <-] & Hin) | [H | [H | H]]];
      try discriminate H.
    apply In_log_emit in Hin. destruct Hin as (Hle & -> & _).
    left. exact Hle.
Qed.

Lemma main_lines_respect_level_witness :
  config.Config_LogLevel inputs.quiet_cfg
  <= zerolog.ev_level (observe.dotenv_warning "1.0.0" inputs.file_missing)
  \/ exists err,
       observe.dotenv_warning "1.0.0" inputs.file_missing
       = observe.dotenv_warning (server.version inputs.quiet_world) err.
Proof.
  apply (main_lines_respect_level inputs.quiet_world inputs.quiet_cfg).
  - reflexivity.
  - vm_compute. auto.
Defined.

(** X19.  [ListenAndServe] is only called with a loaded configuration, on
    its address and its port, and that port is in [1,65535]. *)
Theorem main_listens_as_configured :
  forall w address port,
    In (server.ListenAndServe address port) (fst (server.main w)) ->
    exists cfg,
      spec.loaded w cfg
      /\ address = config.Address (config.Server cfg)
      /\ port = config.Port (config.Server cfg)
      /\ 1 <= port <= 65535.
Proof.
  intros w address port Hin. apply main_actions in Hin.
  destruct Hin as [[err H] | [[err H] | (cfg & Hload & Hin)]];
    try discriminate H.
  apply run_actions in Hin.
  destruct Hin as [(e' & lvl & err & f & msg & H & _) | [H | [H | H]]];
    try discriminate H.
  injection H as -> ->. exists cfg.
  pose proof (loaded_Struct w cfg Hload) as Hs. apply Struct_None in Hs.
  tauto.
Qed.

Lemma main_listens_as_configured_witness :
  exists cfg,
    spec.loaded sample.calm_world cfg
    /\ "" = config.Address (config.Server cfg)
    /\ 8080 = config.Port (config.Server cfg)
    /\ 1 <= 8080 <= 65535.
Proof.
  apply (main_listens_as_configured sample.calm_world "" 8080).
  vm_compute. auto 10.
Defined.

Lemma receive_inr relayed incoming t :
  signal.receive relayed incoming = inr t ->
  t = signal.Blocked
  \/ exists s, In s incoming /\ relayed s = false
               /\ signal.default_action s = Some t.
Proof.
  induction incoming as [|s0 rest IH]; simpl.
  - intros [= <-]. auto.
  - destruct (relayed s0) eqn:Hr; [discriminate|].
    destruct (signal.default_action s0) as [t0|] eqn:Hd.
    + intros [= <-]. right. exists s0. auto.
    + intros H. destruct (IH H) as [-> | (s & Hin & Hs & Hd')]; [auto|].
      right. exists s. auto.
Qed.

(** How [main] ends once the configuration is loaded. *)
Lemma run_termination logger cfg w :
  snd (server.run logger cfg w)
  = match snd (server.serve
                 (zerolog.With_Level (config.Config_LogLevel cfg) logger)
                 cfg w) with
    | Some t => t
    | None =>
        match spec.first_signal w with
        | inr t => t
        | inl _ =>
            match server.Server_Shutdown (30 * server.Second) w with
            | Some _ => signal.Exit 1
            | None => signal.Exit 0
            end
        end
    end.
Proof.
  unfold server.run, spec.first_signal, server.shutdown, server.Fatal.
  destruct (server.serve _ cfg w) as [served [t|]]; [reflexivity|].
  destruct (signal.receive _ _); [|reflexivity].
  destruct (server.Server_Shutdown _ w); reflexivity.
Qed.

Lemma serve_termination logger cfg w t :
  snd (server.serve logger cfg w) = Some t -> t = signal.Exit 1.
Proof.
  unfold server.serve, server.Fatal.
  destruct (server.listen_error w) as [[]|]; cbn [snd]; congruence.
Qed.

(** X15.  The process exits with status 0 only when the configuration was
    loaded, SIGINT or SIGTERM was received and [Shutdown] returned no
    error. *)
Theorem main_exit_0_only_after_shutdown :
  forall w,
    snd (server.main w) = signal.Exit 0 ->
    exists cfg s,
      spec.loaded w cfg
      /\ spec.first_signal w = inl s
      /\ (s = signal.SIGINT \/ s = signal.SIGTERM)
      /\ server.Server_Shutdown (30 * server.Second) w = None.
Proof.
  intros w. rewrite main_unfold.
  destruct (fst (config.LoadConfig _ _ _)) as [[cfg|] [err|]] eqn:Hload;
    cbn [snd]; try discriminate.
  rewrite run_termination.
  destruct (snd (server.serve _ cfg w)) as [t|] eqn:Hserve.
  { apply serve_termination in Hserve. congruence. }
  destruct (spec.first_signal w) as [s|t] eqn:Hsig.
  - destruct (server.Server_Shutdown _ w) eqn:Hsd; [discriminate|].
    intros _. exists cfg, s. split; [exact Hload|]. split; [reflexivity|].
    split; [|reflexivity].
    apply Notify_INT_TERM. eapply receive_relayed. exact Hsig.
  - intros ->. apply receive_inr in Hsig.
    destruct Hsig as [H | (s & _ & _ & Hd)]; [discriminate|].
    destruct s; discriminate.
Qed.

Lemma main_exit_0_only_after_shutdown_witness :
  exists cfg s,
    spec.loaded sample.calm_world cfg
    /\ spec.first_signal sample.calm_world = inl s
    /\ (s = signal.SIGINT \/ s = signal.SIGTERM)
    /\ server.Server_Shutdown (30 * server.Second) sample.calm_world = None.
Proof.
  apply (main_exit_0_only_after_shutdown sample.calm_world). reflexivity.
Defined.

(** X16.  [main] ends the process with status 0 or 1 only (the nil
    configuration that [config.LogLevel()] would dereference never
    occurs); otherwise the process keeps waiting for a signal, or ends by
    the default action of a signal that is not relayed to [main]. *)
Theorem main_terminations :
  forall w,
    snd (server.main w) = signal.Exit 0
    \/ snd (server.main w) = signal.Exit 1
    \/ snd (server.main w) = signal.Blocked
    \/ exists s,
         In s (server.incoming w)
         /\ signal.Notify [signal.SIGINT; signal.SIGTERM] s = false
         /\ signal.default_action s = Some (snd (server.main w)).
Proof.
  intros w. rewrite main_unfold.
  destruct (fst (config.LoadConfig _ _ _)) as [[cfg|] [err|]] eqn:Hload;
    cbn [snd]; auto.
  - rewrite run_termination.
    destruct (snd (server.serve _ cfg w)) as [t|] eqn:Hserve.
    { apply serve_termination in Hserve. subst t. auto. }
    destruct (spec.first_signal w) as [s|t] eqn:Hsig.
    + destruct (server.Server_Shutdown _ w); auto.
    + apply receive_inr in Hsig.
      destruct Hsig as [-> | (s & Hin & Hr & Hd)]; [auto|].
      right; right; right. exists s. auto.
  - destruct (LoadConfig_cases config.Config
                (server.start_logger (server.version w))
                (server.dotenv w) (server.environ w)) as [[c Hc] | [e He]];
      congruence.
Qed.



(** X3.  [LoadConfig] changes the process environment: after it has read
    a .env file, whether it returns an error or not, a variable set before
    keeps its value and a variable that was unset has the value the file
    gives it. *)
Theorem LoadConfig_sets_dotenv_variables :
  forall (A : Type) logger vars environ key,
    config.environ_after
      (snd (@config.LoadConfig A logger (inl vars) environ)) !! key
    = match environ !! key with
      | Some v => Some v
      | None => vars !! key
      end.
Proof.
  intros A logger vars environ key.
  assert (Hafter : config.environ_after
                     (snd (@config.LoadConfig A logger (inl vars) environ))
                   = environ ∪ vars).
  { unfold config.LoadConfig. simpl.
    destruct (config.Parse _ config.zero) as [c [e|]]; [reflexivity|].
    destruct (config.Struct c); reflexivity. }
  rewrite Hafter. rewrite lookup_union.
  destruct (environ !! key), (vars !! key); reflexivity.
Qed.
